(** * ASL recognizer: model selectors and recognizer

    A shallow embedding of [my_model_selectors.py] and [my_recognizer.py].

    - Python floats (and numpy's float64) are Rocq's primitive binary64
      floats, so comparisons against the sentinels, ties and NaN behave as
      they do at run time.
    - Python exceptions are a [result] monad; [except ValueError] and the
      bare [except:] of [base_model] are two different handlers.
    - The hmmlearn trainer and scorer, numpy's [log] and [mean], sklearn's
      [KFold] and [asl_utils.combine_sequences] are collaborators of the
      selectors: they are variables of the sections below.
    - [while] loops run on fuel with their guard written out; the selectors
      give them enough fuel to leave through the guard. *)

From Stdlib Require Import ZArith Floats Lia.
From stdpp Require Import base option list strings gmap.

#[local] Open Scope Z_scope.

(** ** Python exceptions *)

(** The two handlers of the sources tell [ValueError] (with its subclasses)
    from every other exception. *)
Inductive exn : Set :=
| ValueError
| OtherException.

Inductive result (A : Type) : Type :=
| Ok (a : A)
| Raise (e : exn).
Arguments Ok {A} a.
Arguments Raise {A} e.

#[global] Instance result_ret : MRet result := fun _ a => Ok a.
#[global] Instance result_bind : MBind result := fun _ _ f r =>
  match r with
  | Ok a => f a
  | Raise e => Raise e
  end.
#[global] Instance result_fmap : FMap result := fun _ _ f r =>
  match r with
  | Ok a => Ok (f a)
  | Raise e => Raise e
  end.

(** [try: body / except ValueError: handler] *)
Definition try_except_ValueError {A} (body : result A) (handler : result A) : result A :=
  match body with
  | Raise ValueError => handler
  | r => r
  end.

(** [try: body / except: handler] (a bare [except] catches everything) *)
Definition try_except {A} (body : result A) (handler : result A) : result A :=
  match body with
  | Raise _ => handler
  | r => r
  end.

(** ** Floats *)

Module Float.

(** The float nearest to an integer (ties to even), infinite beyond the
    range of binary64. *)
Definition of_Z (z : Z) : float := SF2Prim (binary_normalize prec emax z 0 false).

(** Python's [int] to [float] conversion, as in [int * float]: the nearest
    float, and an [OverflowError] for an integer beyond the range of
    binary64. *)
Definition of_int (z : Z) : result float :=
  let f := of_Z z in
  if PrimFloat.is_infinity f then Raise OtherException else Ok f.

(** Python's [a < b] and [a > b] on floats. *)
Definition ltb (a b : float) : bool := PrimFloat.ltb a b.
Definition gtb (a b : float) : bool := PrimFloat.ltb b a.

(** Python's [a == b] on floats. *)
Definition eqb (a b : float) : bool := PrimFloat.eqb a b.

End Float.

(** ** Ordered dictionaries *)

(** A Python [dict] whose iteration order matters: its items in insertion
    order. The keys of a dict are unique ([dict_wf]). *)
Abbreviation dict V := (list (string * V)).

Definition dict_keys {V} (d : dict V) : list string := d.*1.

Fixpoint dict_get {V} (d : dict V) (k : string) : option V :=
  match d with
  | [] => None
  | (k', v) :: d' => if String.eqb k' k then Some v else dict_get d' k
  end.

Definition dict_wf {V} (d : dict V) : Prop := NoDup (dict_keys d).

(** ** While loops *)

(** [while cond: body] on fuel; an exception of the body leaves the loop. *)
Fixpoint while_loop {S : Type} (fuel : nat) (cond : S -> bool) (body : S -> result S)
    (s : S) : result S :=
  match fuel with
  | O => Ok s
  | Datatypes.S fuel' =>
      if cond s then
        match body s with
        | Ok s' => while_loop fuel' cond body s'
        | Raise e => Raise e
        end
      else Ok s
  end.

(** ** Data *)

(** One feature vector, one observation sequence, and an observation matrix
    (the rows of [X]). *)
Definition frame : Type := list float.
Definition sequence : Type := list frame.
Definition matrix : Type := list frame.

(** A fitted [GaussianHMM]: the constructor's [n_components] and
    [random_state] and what [fit] learned. [covariance_type="diag"],
    [n_iter=1000] and [verbose=False] are the same at every construction. *)
Record GaussianHMM (params : Type) : Type := mkGaussianHMM {
  n_components : Z;
  hmm_random_state : Z;
  fitted : params
}.
Arguments mkGaussianHMM {params} _ _ _.
Arguments n_components {params} _.
Arguments hmm_random_state {params} _.
Arguments fitted {params} _.

(** [ModelSelector]'s attributes, as [__init__] sets them. *)
Record ModelSelector : Type := mkModelSelector {
  words : dict (list sequence);
  hwords : dict (matrix * list Z);
  sequences : list sequence;
  X : matrix;
  lengths : list Z;
  this_word : string;
  n_constant : Z;
  min_n_components : Z;
  max_n_components : Z;
  random_state : Z;
  verbose : bool
}.


(** The running best of a search loop: [cur_comp_count], the best score so
    far ([best_bic], [best_dic], [best_logL]) and [best_comp_count]. *)
Record search_state : Type := mkSearch {
  cur_comp_count : Z;
  best_value : float;
  best_comp_count : Z
}.

(** [cur_comp_count += 1] *)
Definition next_comp (st : search_state) : search_state :=
  mkSearch (cur_comp_count st + 1) (best_value st) (best_comp_count st).

(** The loops run [while cur_comp_count <= self.max_n_components]. *)
Definition search_cond (self : ModelSelector) (st : search_state) : bool :=
  cur_comp_count st <=? max_n_components self.

(** The guard fails after [max - min + 1] rounds. *)
Definition search_fuel (self : ModelSelector) : nat :=
  Z.to_nat (max_n_components self + 1 - min_n_components self).

(** Python's [sum] of a list of integers. *)
Definition sum_Z (l : list Z) : Z := foldl Z.add 0 l.

(** [len] of a list, as a Python integer. *)
Definition len {A} (l : list A) : Z := Z.of_nat (length l).

(** ** The selectors *)

Section Selectors.

Context {params : Type}.

(** hmmlearn: what
    [GaussianHMM(n_components, "diag", n_iter=1000, random_state).fit(X, lengths)]
    learns from [n_components], [random_state], [X] and [lengths], or the
    exception it raises. The seed is fixed, so fitting is a function. *)
Variable hmm_fit : Z -> Z -> matrix -> list Z -> result params.

(** hmmlearn: [model.score(X, lengths)]. *)
Variable hmm_score : GaussianHMM params -> matrix -> list Z -> result float.

(** numpy: [np.log] of an integer, and [np.mean] of a list of floats. *)
Variable np_log : Z -> float.
Variable np_mean : list float -> float.

(** sklearn: the [(train, test)] index pairs that
    [KFold(n_splits).split(sequences)] yields, or the exception of the
    constructor or of the split. *)
Variable KFold_split : Z -> list sequence -> result (list (list nat * list nat)).

(** asl_utils: [combine_sequences(split_index_list, sequences)]. *)
Variable combine_sequences : list nat -> list sequence -> matrix * list Z.

(** [GaussianHMM(n_components=n, ..., random_state=seed).fit(X, lengths)]:
    [fit] returns the model it was called on. *)
Definition GaussianHMM_fit (n seed : Z) (x : matrix) (l : list Z)
    : result (GaussianHMM params) :=
  p ← hmm_fit n seed x l;
  Ok (mkGaussianHMM n seed p).

(** [ModelSelector.base_model]: every exception of the fit becomes [None]. *)
Definition base_model (self : ModelSelector) (num_states : Z)
    : result (option (GaussianHMM params)) :=
  try_except
    (hmm_model ← GaussianHMM_fit num_states (random_state self) (X self) (lengths self);
     Ok (Some hmm_model))
    (Ok None).

(** [SelectorConstant.select] *)
Definition SelectorConstant_select (self : ModelSelector)
    : result (option (GaussianHMM params)) :=
  let best_num_components := n_constant self in
  base_model self best_num_components.

(** *** SelectorBIC *)

(** [p_val] and [bic] of lines 86-87. [p_val] is a Python integer: its
    product with numpy's float converts it, which raises an [OverflowError]
    when it is too large. *)
Definition bic_p_val (self : ModelSelector) (cur : Z) : Z :=
  cur ^ 2 + 2 * cur * sum_Z (lengths self) - 1.

Definition bic_value (self : ModelSelector) (cur : Z) (logL : float) : result float :=
  p ← Float.of_int (bic_p_val self cur);
  Ok ((-2) * logL + p * np_log (len (X self)))%float.

(** The [try] block of [SelectorBIC.select]. *)
Definition bic_try (self : ModelSelector) (st : search_state) : result search_state :=
  candidate ← GaussianHMM_fit (cur_comp_count st) (random_state self) (X self) (lengths self);
  logL ← hmm_score candidate (X self) (lengths self);
  bic ← bic_value self (cur_comp_count st) logL;
  if Float.ltb bic (best_value st)
  then Ok (mkSearch (cur_comp_count st) bic (cur_comp_count st))
  else Ok st.

(** One round of the loop: the [try], its [except ValueError] (count up and
    [continue]) and the count after it. *)
Definition bic_body (self : ModelSelector) (st : search_state) : result search_state :=
  match bic_try self st with
  | Ok st' => Ok (next_comp st')
  | Raise ValueError => Ok (next_comp st)
  | Raise e => Raise e
  end.

(** [SelectorBIC.select] *)
Definition SelectorBIC_select (self : ModelSelector) : result (option (GaussianHMM params)) :=
  let init_comp_count := min_n_components self in
  let init_bic := 100000000%float in
  st ← while_loop (search_fuel self) (search_cond self) (bic_body self)
         (mkSearch init_comp_count init_bic init_comp_count);
  base_model self (best_comp_count st).

(** *** SelectorDIC *)

(** The [for w, (alt_X, alt_lengths) in self.hwords.items()] loop: the scores
    of the candidate on the other words, in the order of the items. *)
Fixpoint dic_other_scores (self : ModelSelector) (candidate : GaussianHMM params)
    (items : dict (matrix * list Z)) (otherLogLs : list float) : result (list float) :=
  match items with
  | [] => Ok otherLogLs
  | (w, (alt_X, alt_lengths)) :: items' =>
      if negb (String.eqb w (this_word self)) then
        altLogL ← hmm_score candidate alt_X alt_lengths;
        dic_other_scores self candidate items' (otherLogLs ++ [altLogL])
      else dic_other_scores self candidate items' otherLogLs
  end.

(** The [try] block of [SelectorDIC.select]. *)
Definition dic_try (self : ModelSelector) (st : search_state) : result search_state :=
  candidate ← GaussianHMM_fit (cur_comp_count st) (random_state self) (X self) (lengths self);
  logL ← hmm_score candidate (X self) (lengths self);
  otherLogLs ← dic_other_scores self candidate (hwords self) [];
  let meanAltLog := np_mean otherLogLs in
  let dic := (logL - meanAltLog)%float in
  if Float.gtb dic (best_value st)
  then Ok (mkSearch (cur_comp_count st) dic (cur_comp_count st))
  else Ok st.

Definition dic_body (self : ModelSelector) (st : search_state) : result search_state :=
  match dic_try self st with
  | Ok st' => Ok (next_comp st')
  | Raise ValueError => Ok (next_comp st)
  | Raise e => Raise e
  end.

(** [SelectorDIC.select] *)
Definition SelectorDIC_select (self : ModelSelector) : result (option (GaussianHMM params)) :=
  let init_comp_count := min_n_components self in
  let init_dic := (-100000000)%float in
  st ← while_loop (search_fuel self) (search_cond self) (dic_body self)
         (mkSearch init_comp_count init_dic init_comp_count);
  base_model self (best_comp_count st).

(** *** SelectorCV *)

(** [split_count] of lines 149-151. *)
Definition cv_split_count (self : ModelSelector) : Z :=
  let split_count := 3 in
  if len (sequences self) <? 3 then len (sequences self) else split_count.

(** Line 154: the data a fold trains on. *)
Definition cv_train_data (self : ModelSelector) (cv_train_idx cv_test_idx : list nat)
    : matrix * list Z :=
  combine_sequences cv_train_idx (sequences self).

(** Line 158: the data a fold is scored on. *)
Definition cv_test_data (self : ModelSelector) (cv_train_idx cv_test_idx : list nat)
    : matrix * list Z :=
  combine_sequences cv_train_idx (sequences self).

(** The [try] block of a fold: fit on the train data, score on the test data. *)
Definition cv_fold_try (self : ModelSelector) (cur : Z) (cv_train_idx cv_test_idx : list nat)
    : result float :=
  let '(train_X, train_lengths) := cv_train_data self cv_train_idx cv_test_idx in
  let '(test_X, test_lengths) := cv_test_data self cv_train_idx cv_test_idx in
  candidate ← GaussianHMM_fit cur (random_state self) train_X train_lengths;
  hmm_score candidate test_X test_lengths.

(** One pass of the [for cv_train_idx, cv_test_idx in ...] loop. *)
Definition cv_fold (self : ModelSelector) (cur : Z) (fold : list nat * list nat)
    (logLs : list float) : result (list float) :=
  let '(cv_train_idx, cv_test_idx) := fold in
  let '(train_X, train_lengths) := cv_train_data self cv_train_idx cv_test_idx in
  if len train_X >=? cur then
    match cv_fold_try self cur cv_train_idx cv_test_idx with
    | Ok logL => Ok (logLs ++ [logL])
    | Raise ValueError => Ok logLs
    | Raise e => Raise e
    end
  else Ok logLs.

Fixpoint cv_folds (self : ModelSelector) (cur : Z) (folds : list (list nat * list nat))
    (logLs : list float) : result (list float) :=
  match folds with
  | [] => Ok logLs
  | fold :: folds' =>
      logLs' ← cv_fold self cur fold logLs;
      cv_folds self cur folds' logLs'
  end.

(** One round of the [while] loop of [SelectorCV.select]. *)
Definition cv_body (self : ModelSelector) (st : search_state) : result search_state :=
  let split_count := cv_split_count self in
  folds ← KFold_split split_count (sequences self);
  logLs ← cv_folds self (cur_comp_count st) folds [];
  let st' :=
    if len logLs >? 0 then
      let avg_logL := np_mean logLs in
      if Float.gtb avg_logL (best_value st)
      then mkSearch (cur_comp_count st) avg_logL (cur_comp_count st)
      else st
    else st in
  Ok (next_comp st').

(** [SelectorCV.select] *)
Definition SelectorCV_select (self : ModelSelector) : result (option (GaussianHMM params)) :=
  let init_comp_count := min_n_components self in
  let init_logL := (-100000)%float in
  st ← while_loop (search_fuel self) (search_cond self) (cv_body self)
         (mkSearch init_comp_count init_logL init_comp_count);
  base_model self (best_comp_count st).

(** The items of [hwords] that the inner loop scores: every word but
    [this_word], in the order of the dict. *)
Definition dic_other_words (self : ModelSelector) : dict (matrix * list Z) :=
  filter (fun item => item.1 <> this_word self) (hwords self).

(** *** The score of a candidate

    What a round of each loop computes for the state count [n] before it
    compares: the candidate's score, [None] when the round skips [n], or the
    exception that leaves the loop. *)

Definition bic_crit (self : ModelSelector) (n : Z) : result (option float) :=
  try_except_ValueError
    (candidate ← GaussianHMM_fit n (random_state self) (X self) (lengths self);
     logL ← hmm_score candidate (X self) (lengths self);
     bic ← bic_value self n logL;
     Ok (Some bic))
    (Ok None).

Definition dic_crit (self : ModelSelector) (n : Z) : result (option float) :=
  try_except_ValueError
    (candidate ← GaussianHMM_fit n (random_state self) (X self) (lengths self);
     logL ← hmm_score candidate (X self) (lengths self);
     otherLogLs ← dic_other_scores self candidate (hwords self) [];
     Ok (Some (logL - np_mean otherLogLs)%float))
    (Ok None).

Definition cv_crit (self : ModelSelector) (n : Z) : result (option float) :=
  folds ← KFold_split (cv_split_count self) (sequences self);
  logLs ← cv_folds self n folds [];
  Ok (if len logLs >? 0 then Some (np_mean logLs) else None).

(** The score that a fold adds to [logLs], when it adds one: the training
    data has a row for every state, and the fit and the score return. *)
Definition cv_fold_score (self : ModelSelector) (cur : Z) (fold : list nat * list nat)
    : option float :=
  let '(train_X, train_lengths) := combine_sequences fold.1 (sequences self) in
  if len train_X >=? cur then
    match
      candidate ← GaussianHMM_fit cur (random_state self) train_X train_lengths;
      hmm_score candidate train_X train_lengths
    with
    | Ok logL => Some logL
    | Raise _ => None
    end
  else None.

End Selectors.

(** A selector with another corpus mapping in [hwords]. *)
Definition with_hwords (self : ModelSelector) (hw : dict (matrix * list Z)) : ModelSelector :=
  mkModelSelector (words self) hw (sequences self) (X self) (lengths self) (this_word self)
    (n_constant self) (min_n_components self) (max_n_components self)
    (random_state self) (verbose self).

(** ** The common shape of the three searches *)

(** A round that scored [v] keeps it when it is [better] than the running
    best; every round counts up. *)
Definition search_update (better : float -> float -> bool) (st : search_state)
    (r : option float) : search_state :=
  next_comp
    match r with
    | Some v =>
        if better v (best_value st)
        then mkSearch (cur_comp_count st) v (cur_comp_count st)
        else st
    | None => st
    end.

Definition search_body (better : float -> float -> bool) (crit : Z -> result (option float))
    (st : search_state) : result search_state :=
  r ← crit (cur_comp_count st);
  Ok (search_update better st r).

(** A strict comparison that can drive a running best: it never holds
    between a value and itself, and it is transitive. *)
Class StrictB (better : float -> float -> bool) : Prop := {
  better_irrefl : forall a, better a a = false;
  better_trans : forall a b c, better a b = true -> better b c = true -> better a c = true
}.

(** What a search over [lo..hi] from [sentinel] leaves in its state. No
    scored candidate is better than the running best; and either no
    candidate beat the sentinel and the state count is still [lo], or the
    state count is a candidate that scored the running best, beat the
    sentinel, and beat some earlier running best that no candidate before
    it had beaten. *)
Definition search_result (better : float -> float -> bool) (crit : Z -> result (option float))
    (lo hi : Z) (sentinel : float) (st : search_state) : Prop :=
  (forall n, lo <= n <= hi ->
     exists r, crit n = Ok r /\
       forall v, r = Some v -> better v (best_value st) = false) /\
  ((best_value st = sentinel /\ best_comp_count st = lo) \/
   (lo <= best_comp_count st <= hi /\
    crit (best_comp_count st) = Ok (Some (best_value st)) /\
    better (best_value st) sentinel = true /\
    forall n v, lo <= n < best_comp_count st -> crit n = Ok (Some v) ->
      exists b, better v b = false /\ better (best_value st) b = true)).

(** What the rounds [lo .. cur - 1] of a search leave in its state. *)
Definition search_inv (better : float -> float -> bool) (crit : Z -> result (option float))
    (self : ModelSelector) (sentinel : float) (st : search_state) : Prop :=
  let lo := min_n_components self in
  let hi := max_n_components self in
  lo <= cur_comp_count st /\
  (cur_comp_count st <= hi + 1 \/ st = mkSearch lo sentinel lo) /\
  search_result better crit lo (cur_comp_count st - 1) sentinel st.

(** ** The recognizer *)

(** [SinglesData], as [recognize] reads it. *)
Record SinglesData : Type := mkSinglesData {
  num_items : nat;
  wordlist : nat -> string;
  get_item_sequences : nat -> list sequence;
  get_item_Xlengths : nat -> matrix * list Z
}.

(** What the inner loop of [recognize] updates for one test item. *)
Record item_state : Type := mkItem {
  p_hash : gmap string float;
  best_score : float;
  best_word : option string
}.

Section Recognizer.

Context {params : Type}.

(** hmmlearn: [model.score(X, lengths)]. *)
Variable hmm_score : GaussianHMM params -> matrix -> list Z -> result float.

(** The [try] block of the [for m_key in models] loop. *)
Definition recognize_try (models : dict (GaussianHMM params)) (Xl : matrix * list Z)
    (st : item_state) (m_key : string) : result item_state :=
  model ← match dict_get models m_key with
          | Some model => Ok model
          | None => Raise OtherException
          end;
  logL ← hmm_score model Xl.1 Xl.2;
  let p_hash' := <[m_key := logL]> (p_hash st) in
  if Float.gtb logL (best_score st)
  then Ok (mkItem p_hash' logL (Some m_key))
  else Ok (mkItem p_hash' (best_score st) (best_word st)).

(** One pass of the loop: the [try] and its [except ValueError: continue]. *)
Definition recognize_word (models : dict (GaussianHMM params)) (Xl : matrix * list Z)
    (st : item_state) (m_key : string) : result item_state :=
  try_except_ValueError (recognize_try models Xl st m_key) (Ok st).

Fixpoint recognize_words (models : dict (GaussianHMM params)) (Xl : matrix * list Z)
    (m_keys : list string) (st : item_state) : result item_state :=
  match m_keys with
  | [] => Ok st
  | m_key :: m_keys' =>
      st' ← recognize_word models Xl st m_key;
      recognize_words models Xl m_keys' st'
  end.

(** The body of the [for i in range(test_set.num_items)] loop for an item
    whose [(X, lengths)] is [Xl]: its probabilities and its guess. *)
Definition recognize_item (models : dict (GaussianHMM params)) (Xl : matrix * list Z)
    : result (gmap string float * option string) :=
  st ← recognize_words models Xl (dict_keys models)
         (mkItem ∅ (-1000000000)%float None);
  Ok (p_hash st, best_word st).

Fixpoint recognize_items (models : dict (GaussianHMM params)) (test_set : SinglesData)
    (items : list nat) (probabilities : list (gmap string float))
    (guesses : list (option string))
    : result (list (gmap string float) * list (option string)) :=
  match items with
  | [] => Ok (probabilities, guesses)
  | i :: items' =>
      let word := wordlist test_set i in
      let seqs := get_item_sequences test_set i in
      let Xl := get_item_Xlengths test_set i in
      '(p, g) ← recognize_item models Xl;
      recognize_items models test_set items' (probabilities ++ [p]) (guesses ++ [g])
  end.

(** [recognize] *)
Definition recognize (models : dict (GaussianHMM params)) (test_set : SinglesData)
    : result (list (gmap string float) * list (option string)) :=
  recognize_items models test_set (seq 0 (num_items test_set)) [] [].

(** The log-likelihood of the item under the model of [w], when [w] has a
    model and the model scores the item. *)
Definition word_score (models : dict (GaussianHMM params)) (Xl : matrix * list Z)
    (w : string) : option float :=
  match dict_get models w with
  | Some model =>
      match hmm_score model Xl.1 Xl.2 with
      | Ok logL => Some logL
      | Raise _ => None
      end
  | None => None
  end.

End Recognizer.

(** ** Concrete collaborators

    Instances of the collaborators, to run the selectors and the recognizer
    on concrete inputs. *)

(** Modelled from the spec: [asl_utils.combine_sequences], whose file is not
    among the sources: the sequences at the given indices, concatenated,
    with the length of each. *)
Definition asl_combine_sequences (split_index_list : list nat) (seqs : list sequence)
    : matrix * list Z :=
  let sequences_fold := map (fun idx => nth idx seqs []) split_index_list in
  (concat sequences_fold, map len sequences_fold).

(** scikit-learn's [KFold] without shuffling: consecutive test folds, the
    first [n_samples mod n_splits] of them one longer; fewer than two
    splits, or more splits than samples, are a [ValueError]. *)
Definition kfold_sizes (n_samples n_splits : nat) : list nat :=
  map (fun i => (n_samples / n_splits + (if (i <? n_samples mod n_splits)%nat then 1 else 0))%nat)
      (seq 0 n_splits).

Fixpoint kfold_from (n_samples start : nat) (sizes : list nat) : list (list nat * list nat) :=
  match sizes with
  | [] => []
  | size :: sizes' =>
      let test := seq start size in
      let train := seq 0 start ++ seq (start + size) (n_samples - (start + size)) in
      (train, test) :: kfold_from n_samples (start + size) sizes'
  end.

Definition sklearn_KFold_split (n_splits : Z) (seqs : list sequence)
    : result (list (list nat * list nat)) :=
  if n_splits <=? 1 then Raise ValueError
  else if len seqs <? n_splits then Raise ValueError
  else Ok (kfold_from (length seqs) 0 (kfold_sizes (length seqs) (Z.to_nat n_splits))).

Module Toy.

(** A trainer that fits when [ok] accepts the state count and the data, and
    raises a [ValueError] otherwise. *)
Definition hmm_fit (ok : Z -> matrix -> bool) (n seed : Z) (x : matrix) (l : list Z)
    : result unit :=
  if ok n x then Ok tt else Raise ValueError.

(** A scorer that reads the score off the state count and the data. *)
Definition hmm_score (f : Z -> matrix -> result float) (m : GaussianHMM unit)
    (x : matrix) (l : list Z) : result float :=
  f (n_components m) x.

(** numpy's [log] at the row counts of the inputs below (1, 2, 3 and 6
    rows); a stand-in at other counts. *)
Definition np_log (n : Z) : float :=
  match n with
  | 1 => 0
  | 2 => 0x1.62e42fefa39efp-1 (* 0.6931471805599453 *)
  | 3 => 0x1.193ea7aad030bp+0 (* 1.0986122886681098 *)
  | 6 => 0x1.cab0bfa2a2002p+0 (* 1.791759469228055 *)
  | _ => Float.of_Z (Z.log2 n)
  end%float.

(** The mean as a running sum, which is numpy's for fewer than eight values
    ([nan] for the empty list, as numpy's). *)
Definition np_mean (l : list float) : float :=
  (foldl PrimFloat.add 0 l / Float.of_Z (len l))%float.

(** A selector for the word [w] with the sequences [seqs], alone in its
    corpus or next to other words. *)
Definition selector (w : string) (seqs : list sequence) (others : dict (matrix * list Z))
    (n_const min_n max_n : Z) : ModelSelector :=
  let Xl := asl_combine_sequences (seq 0 (length seqs)) seqs in
  mkModelSelector [(w, seqs)] ((w, Xl) :: others) seqs Xl.1 Xl.2 w
    n_const min_n max_n 14 false.

(** Sequences of one-feature frames, and words with three sequences. *)
Definition one_frame : sequence := [[1%float]].
Definition two_frames : sequence := [[1%float]; [2%float]].
Definition three_short : list sequence := [one_frame; one_frame; one_frame].
Definition three_long : list sequence := [two_frames; two_frames; two_frames].

(** Another word of the corpus, with one frame. *)
Definition word_B : string * (matrix * list Z) := ("B", ([[5%float]], [1])).

(** Trainers: one that fits every state count, one that fails at 3 only,
    one that fits at 3 only. *)
Definition fits_all : Z -> Z -> matrix -> list Z -> result unit :=
  hmm_fit (fun _ _ => true).
Definition fits_all_but_3 : Z -> Z -> matrix -> list Z -> result unit :=
  hmm_fit (fun n _ => negb (n =? 3)).
Definition fits_only_3 : Z -> Z -> matrix -> list Z -> result unit :=
  hmm_fit (fun n _ => n =? 3).

(** A trainer that fits 3 states on any data, and 2 states on data of at
    most four rows. *)
Definition fits_3_and_short_2 : Z -> Z -> matrix -> list Z -> result unit :=
  hmm_fit (fun n x => (n =? 3) || ((n =? 2) && (len x <=? 4))).

(** Scorers: one that gives every data the score [v], one that always
    raises, one that raises on data of one row, and one that scores by the
    state count of the model. *)
Definition scores (v : float) : GaussianHMM unit -> matrix -> list Z -> result float :=
  hmm_score (fun _ _ => Ok v).
Definition score_fails : GaussianHMM unit -> matrix -> list Z -> result float :=
  hmm_score (fun _ _ => Raise ValueError).
Definition score_fails_on_one_row (v : float)
    : GaussianHMM unit -> matrix -> list Z -> result float :=
  hmm_score (fun _ x => if len x =? 1 then Raise ValueError else Ok v).
Definition scores_by_states (v2 v3 : float)
    : GaussianHMM unit -> matrix -> list Z -> result float :=
  hmm_score (fun n _ => Ok (if n =? 2 then v2 else v3)).

(** The selector of a word with three sequences of two frames, next to
    another word, over the range [2 .. 3]. *)
Definition selector_A : ModelSelector := selector "A" three_long [word_B] 3 2 3.

(** A selector whose range is empty, and one of a word alone in its corpus. *)
Definition selector_empty_range : ModelSelector := selector "A" three_long [word_B] 3 5 3.
Definition selector_alone : ModelSelector := selector "A" three_long [] 3 2 3.

(** A test set of two items. *)
Definition two_items : SinglesData :=
  mkSinglesData 2 (fun _ => "A") (fun _ => [one_frame])
    (fun i => if (i =? 0)%nat then ([[1%float]], [1]) else ([[1%float]; [2%float]], [2])).

(** Models of two words, in this order, and a test item. *)
Definition models_AB : dict (GaussianHMM unit) :=
  [("A", mkGaussianHMM 2 14 tt); ("B", mkGaussianHMM 3 14 tt)].
Definition item : matrix * list Z := ([[1%float]], [1]).

End Toy.

(** * Properties *)

(** ** Float comparisons *)

Module FloatFacts.

#[local] Ltac cmp_cases :=
  repeat match goal with
  | H : context [PosDef.Pos.compare_cont Eq ?p ?q] |- _ =>
      change (PosDef.Pos.compare_cont Eq p q) with (Pos.compare p q) in H
  | |- context [PosDef.Pos.compare_cont Eq ?p ?q] =>
      change (PosDef.Pos.compare_cont Eq p q) with (Pos.compare p q)
  end;
  repeat match goal with
  | H : context [Z.compare ?x ?y] |- _ => destruct (Z.compare_spec x y)
  | |- context [Z.compare ?x ?y] => destruct (Z.compare_spec x y)
  | H : context [Pos.compare ?x ?y] |- _ => destruct (Pos.compare_spec x y)
  | |- context [Pos.compare ?x ?y] => destruct (Pos.compare_spec x y)
  end.

#[local] Ltac by_cases a b c :=
  unfold SFeqb, SFltb, SFcompare;
  destruct a as [[]|[]| |[] ? ?], b as [[]|[]| |[] ? ?], c as [[]|[]| |[] ? ?];
  simpl; try congruence; intros;
  cmp_cases; simpl in *; try congruence; try lia.

Lemma SFltb_irrefl a : SFltb a a = false.
Proof.
  unfold SFltb, SFcompare. destruct a as [[]|[]| |[] m e]; simpl; try reflexivity.
  all: rewrite Z.compare_refl;
    change (PosDef.Pos.compare_cont Eq m m) with (Pos.compare m m);
    rewrite Pos.compare_refl; reflexivity.
Qed.

Lemma SFltb_trans a b c : SFltb a b = true -> SFltb b c = true -> SFltb a c = true.
Proof. by_cases a b c. Qed.

Lemma SFeqb_ltb_l a b c : SFeqb a b = true -> SFltb a c = SFltb b c.
Proof. by_cases a b c. Qed.

Lemma SFeqb_ltb_r a b c : SFeqb a b = true -> SFltb c a = SFltb c b.
Proof. by_cases a b c. Qed.

Lemma ltb_irrefl a : Float.ltb a a = false.
Proof. unfold Float.ltb. rewrite FloatAxioms.ltb_spec. apply SFltb_irrefl. Qed.

Lemma ltb_trans a b c : Float.ltb a b = true -> Float.ltb b c = true -> Float.ltb a c = true.
Proof. unfold Float.ltb. rewrite !FloatAxioms.ltb_spec. apply SFltb_trans. Qed.

(** Floats that compare equal ([+0.0] and [-0.0] do) compare alike with
    every third float. *)
Lemma eqb_ltb_l a b c : Float.eqb a b = true -> Float.ltb a c = Float.ltb b c.
Proof.
  unfold Float.eqb, Float.ltb. rewrite FloatAxioms.eqb_spec, !FloatAxioms.ltb_spec.
  apply SFeqb_ltb_l.
Qed.

Lemma eqb_ltb_r a b c : Float.eqb a b = true -> Float.ltb c a = Float.ltb c b.
Proof.
  unfold Float.eqb, Float.ltb. rewrite FloatAxioms.eqb_spec, !FloatAxioms.ltb_spec.
  apply SFeqb_ltb_r.
Qed.

#[global] Instance ltb_strict : StrictB Float.ltb.
Proof. split; [apply ltb_irrefl | apply ltb_trans]. Qed.

#[global] Instance gtb_strict : StrictB Float.gtb.
Proof.
  split; unfold Float.gtb; [intros; apply ltb_irrefl|].
  intros a b c Hab Hbc. exact (ltb_trans c b a Hbc Hab).
Qed.

End FloatFacts.

(** ** Exceptions *)

Lemma try_except_ValueError_not_ValueError {A} (body handler : result A) :
  handler <> Raise ValueError ->
  try_except_ValueError body handler <> Raise ValueError.
Proof. destruct body as [a|[]]; simpl; congruence. Qed.

(** ** While loops *)

Section WhileLoop.

Context {S : Type} (cond : S -> bool) (body : S -> result S).

(** An invariant of the rounds holds when the loop returns. *)
Lemma while_loop_inv (I : S -> Prop) :
  (forall s s', I s -> cond s = true -> body s = Ok s' -> I s') ->
  forall fuel s s', I s -> while_loop fuel cond body s = Ok s' -> I s'.
Proof.
  intros Hstep fuel. induction fuel as [|fuel IH]; simpl; intros s s' Hs Hrun.
  - congruence.
  - destruct (cond s) eqn:Hc; [|congruence].
    destruct (body s) as [s1|e] eqn:Hb; [|discriminate].
    eapply IH; [|exact Hrun]. eauto.
Qed.

(** With fuel for the measure, the loop leaves through its guard. *)
Lemma while_loop_exit (mu : S -> nat) :
  (forall s s', cond s = true -> body s = Ok s' -> (mu s' < mu s)%nat) ->
  (forall s, cond s = true -> (0 < mu s)%nat) ->
  forall fuel s s', (mu s <= fuel)%nat ->
    while_loop fuel cond body s = Ok s' -> cond s' = false.
Proof.
  intros Hmu Hpos fuel. induction fuel as [|fuel IH]; simpl; intros s s' Hfuel Hrun.
  - destruct (cond s) eqn:Hc; [pose proof (Hpos _ Hc); lia | congruence].
  - destruct (cond s) eqn:Hc; [|congruence].
    destruct (body s) as [s1|e] eqn:Hb; [|discriminate].
    pose proof (Hmu _ _ Hc Hb).
    eapply IH; [|exact Hrun]. lia.
Qed.

(** An exception of the loop is an exception of one of its rounds. *)
Lemma while_loop_raise (I : S -> Prop) e :
  (forall s s', I s -> cond s = true -> body s = Ok s' -> I s') ->
  forall fuel s, I s -> while_loop fuel cond body s = Raise e ->
    exists s0, I s0 /\ cond s0 = true /\ body s0 = Raise e.
Proof.
  intros Hstep fuel. induction fuel as [|fuel IH]; simpl; intros s Hs Hrun.
  - discriminate.
  - destruct (cond s) eqn:Hc; [|discriminate].
    destruct (body s) as [s1|e'] eqn:Hb.
    + eapply IH; [|exact Hrun]. eauto.
    + exists s. repeat split; congruence.
Qed.

(** A loop whose rounds return on the invariant returns. *)
Lemma while_loop_total (I : S -> Prop) :
  (forall s, I s -> cond s = true -> exists s', body s = Ok s' /\ I s') ->
  forall fuel s, I s -> exists s', while_loop fuel cond body s = Ok s'.
Proof.
  intros Hstep fuel. induction fuel as [|fuel IH]; simpl; intros s Hs; [eauto|].
  destruct (cond s) eqn:Hc; [|eauto].
  destruct (Hstep _ Hs Hc) as (s1 & Hb & Hs1). rewrite Hb. eauto.
Qed.

End WhileLoop.

Lemma while_loop_ext {S : Type} (cond : S -> bool) (body body' : S -> result S) :
  (forall s, body s = body' s) ->
  forall fuel s, while_loop fuel cond body s = while_loop fuel cond body' s.
Proof.
  intros Hext fuel. induction fuel as [|fuel IH]; simpl; intros s; [reflexivity|].
  rewrite Hext. destruct (cond s); [|reflexivity].
  destruct (body' s); [apply IH | reflexivity].
Qed.

(** ** The search loop *)

Section Search.

Context (better : float -> float -> bool) `{!StrictB better}.
Context (crit : Z -> result (option float)).
Context (self : ModelSelector) (sentinel : float).

Let lo : Z := min_n_components self.
Let hi : Z := max_n_components self.
Let init : search_state := mkSearch lo sentinel lo.

#[local] Abbreviation search_inv' := (search_inv better crit self sentinel).

Lemma search_inv_init : search_inv' init.
Proof.
  unfold search_inv, search_result, init; simpl.
  split; [lia|]. split; [right; reflexivity|]. split; [intros n Hn; lia|].
  left. split; reflexivity.
Qed.

Lemma search_inv_step st st' :
  search_inv' st -> search_cond self st = true ->
  search_body better crit st = Ok st' -> search_inv' st'.
Proof.
  intros (Hlo & Hhi & Hall & Hbest) Hcond Hbody.
  unfold search_cond in Hcond. apply Z.leb_le in Hcond. fold hi in Hcond.
  unfold search_body in Hbody.
  destruct (crit (cur_comp_count st)) as [r|e] eqn:Hcrit; simpl in Hbody; [|discriminate].
  injection Hbody as <-.
  unfold search_update.
  destruct r as [v|]; [destruct (better v (best_value st)) eqn:Hv|];
    unfold search_inv, search_result, next_comp; simpl.
  - (* the round's score is the new best *)
    split; [lia|]. split; [left; lia|]. split.
    + intros n Hn. destruct (decide (n = cur_comp_count st)) as [->|Hne].
      * exists (Some v). split; [exact Hcrit|].
        intros v' [= <-]. apply better_irrefl.
      * destruct (Hall n ltac:(lia)) as (r & Hr & Hno).
        exists r. split; [exact Hr|]. intros v' ->.
        specialize (Hno _ eq_refl).
        destruct (better v' v) eqn:Hvv; [|reflexivity].
        rewrite (better_trans _ _ _ Hvv Hv) in Hno. discriminate.
    + right. split; [lia|]. split; [exact Hcrit|]. split.
      * destruct Hbest as [[Hs _]|(_ & _ & Hs & _)]; [congruence|].
        exact (better_trans _ _ _ Hv Hs).
      * intros n v' Hn Hv'. exists (best_value st). split; [|exact Hv].
        destruct (Hall n ltac:(lia)) as (r & Hr & Hno).
        apply Hno. congruence.
  - (* the round's score does not beat the best *)
    split; [lia|]. split; [left; lia|]. split.
    + intros n Hn. destruct (decide (n = cur_comp_count st)) as [->|Hne].
      * exists (Some v). split; [exact Hcrit|]. intros v' [= <-]. exact Hv.
      * apply Hall. lia.
    + destruct Hbest as [?|(? & ? & ? & ?)]; [left; assumption|right].
      repeat split; auto; lia.
  - (* the round is skipped *)
    split; [lia|]. split; [left; lia|]. split.
    + intros n Hn. destruct (decide (n = cur_comp_count st)) as [->|Hne].
      * exists None. split; [exact Hcrit|]. discriminate.
      * apply Hall. lia.
    + destruct Hbest as [?|(? & ? & ? & ?)]; [left; assumption|right].
      repeat split; auto; lia.
Qed.

Lemma search_cur_step st st' :
  search_body better crit st = Ok st' -> cur_comp_count st' = cur_comp_count st + 1.
Proof.
  unfold search_body. destruct (crit _) as [r|e]; simpl; [|discriminate].
  intros [= <-]. unfold search_update.
  destruct r as [v|]; [destruct (better _ _)|]; reflexivity.
Qed.

(** What the loop leaves behind when it returns. *)
Lemma search_loop_spec st :
  while_loop (search_fuel self) (search_cond self) (search_body better crit) init = Ok st ->
  search_result better crit lo hi sentinel st.
Proof.
  intros Hrun.
  assert (Hinv : search_inv' st).
  { eapply while_loop_inv; [|apply search_inv_init|exact Hrun].
    intros; eapply search_inv_step; eauto. }
  assert (Hexit : search_cond self st = false).
  { eapply (while_loop_exit _ _ (fun s => Z.to_nat (hi + 1 - cur_comp_count s)));
      [| | |exact Hrun].
    - intros s s' Hc Hb. unfold search_cond in Hc. apply Z.leb_le in Hc. fold hi in Hc.
      rewrite (search_cur_step _ _ Hb). lia.
    - intros s Hc. unfold search_cond in Hc. apply Z.leb_le in Hc. fold hi in Hc. lia.
    - unfold search_fuel, init; simpl. fold lo hi. lia. }
  unfold search_cond in Hexit. apply Z.leb_gt in Hexit. fold hi in Hexit.
  destruct Hinv as (Hlo & [Hhi | ->] & Hres).
  - replace hi with (cur_comp_count st - 1) by lia. exact Hres.
  - simpl in *. destruct Hres as (_ & Hbest). split.
    + intros n Hn. lia.
    + left. split; reflexivity.
Qed.

(** The loop returns when every round does. *)
Lemma search_loop_total :
  (forall n, lo <= n <= hi -> exists r, crit n = Ok r) ->
  exists st,
    while_loop (search_fuel self) (search_cond self) (search_body better crit) init = Ok st.
Proof.
  intros Hok.
  apply (while_loop_total _ _ (fun s => lo <= cur_comp_count s)); [|simpl; lia].
  intros s Hs Hc. unfold search_cond in Hc. apply Z.leb_le in Hc. fold hi in Hc.
  cbv beta in Hs.
  assert (Hin : lo <= cur_comp_count s <= hi) by lia.
  destruct (Hok _ Hin) as (r & Hr).
  unfold search_body. rewrite Hr. simpl. eexists. split; [reflexivity|].
  unfold search_update. destruct r as [v|]; [destruct (better _ _)|]; simpl; lia.
Qed.

(** An exception of the loop is the exception of a candidate in range. *)
Lemma search_loop_raise e :
  while_loop (search_fuel self) (search_cond self) (search_body better crit) init = Raise e ->
  exists n, lo <= n <= hi /\ crit n = Raise e.
Proof.
  intros Hrun.
  assert (Hstep : forall s s', lo <= cur_comp_count s -> search_cond self s = true ->
            search_body better crit s = Ok s' -> lo <= cur_comp_count s').
  { intros s s' Hs _ Hb. rewrite (search_cur_step _ _ Hb). lia. }
  destruct (while_loop_raise _ _ (fun s => lo <= cur_comp_count s) e Hstep _ init
              ltac:(simpl; lia) Hrun) as (s0 & Hs0 & Hc & Hb).
  unfold search_cond in Hc. apply Z.leb_le in Hc. fold hi in Hc. cbv beta in Hs0.
  exists (cur_comp_count s0). split; [lia|].
  unfold search_body in Hb. destruct (crit _); [discriminate|].
  simpl in Hb. congruence.
Qed.

(** The state count stays in range, when there is a range. *)
Lemma search_result_range st :
  search_result better crit lo hi sentinel st ->
  lo <= hi -> lo <= best_comp_count st <= hi.
Proof. intros (_ & [[_ ->]|(? & _)]) Hle; lia. Qed.

(** The later of two candidates with one score is not chosen. *)
Lemma search_result_tie st n1 n2 v1 v2 :
  search_result better crit lo hi sentinel st ->
  lo <= n1 -> n1 < n2 -> n2 <= hi ->
  crit n1 = Ok (Some v1) -> crit n2 = Ok (Some v2) ->
  (forall b, better v1 b = better v2 b) ->
  best_comp_count st <> n2.
Proof.
  intros (Hall & Hbest) H1 H12 H2 Hc1 Hc2 Hsame Heq.
  destruct Hbest as [[_ Hs]|(_ & Hc & _ & Hearly)].
  - lia.
  - rewrite Heq, Hc2 in Hc. injection Hc as Hv.
    destruct (Hearly n1 v1 ltac:(lia) Hc1) as (b & Hb1 & Hb2).
    rewrite <- Hv, <- Hsame in Hb2. congruence.
Qed.

(** A single scoring candidate that beats the sentinel is chosen. *)
Lemma search_result_unique st n0 v :
  search_result better crit lo hi sentinel st ->
  lo <= n0 <= hi -> crit n0 = Ok (Some v) -> better v sentinel = true ->
  (forall n, lo <= n <= hi -> n <> n0 -> crit n = Ok None) ->
  best_comp_count st = n0 /\ best_value st = v.
Proof.
  intros (Hall & Hbest) Hn0 Hc0 Hv Hothers.
  destruct Hbest as [[Hs _]|(Hr & Hc & _)].
  - destruct (Hall n0 Hn0) as (r & Hr & Hno). rewrite Hc0 in Hr. injection Hr as <-.
    specialize (Hno _ eq_refl). congruence.
  - destruct (decide (best_comp_count st = n0)) as [E|E].
    + rewrite E, Hc0 in Hc. split; congruence.
    + rewrite (Hothers _ Hr E) in Hc. discriminate.
Qed.

End Search.

(** ** Properties of the selectors *)

Section SelectorFacts.

Context {params : Type}.
Variable hmm_fit : Z -> Z -> matrix -> list Z -> result params.
Variable hmm_score : GaussianHMM params -> matrix -> list Z -> result float.
Variable np_log : Z -> float.
Variable np_mean : list float -> float.
Variable KFold_split : Z -> list sequence -> result (list (list nat * list nat)).
Variable combine_sequences : list nat -> list sequence -> matrix * list Z.

#[local] Abbreviation fit := (GaussianHMM_fit hmm_fit).
#[local] Abbreviation base := (base_model hmm_fit).
#[local] Abbreviation bic := (bic_crit hmm_fit hmm_score np_log).
#[local] Abbreviation dic := (dic_crit hmm_fit hmm_score np_mean).
#[local] Abbreviation cv := (cv_crit hmm_fit hmm_score np_mean KFold_split combine_sequences).

(** *** [fit] and [base_model] *)

Lemma fit_n_components n seed x l m : fit n seed x l = Ok m -> n_components m = n.
Proof.
  unfold GaussianHMM_fit. destruct (hmm_fit n seed x l); simpl; [|discriminate].
  intros [= <-]. reflexivity.
Qed.

(** [base_model] returns: the fitted model, or [None] when the fit raised. *)
Lemma base_model_cases self n :
  (exists m, fit n (random_state self) (X self) (lengths self) = Ok m /\
             base self n = Ok (Some m)) \/
  (exists e, fit n (random_state self) (X self) (lengths self) = Raise e /\
             base self n = Ok None).
Proof.
  unfold base_model. destruct (fit n _ _ _) as [m|e]; simpl; eauto.
Qed.

Lemma base_model_Some self n m :
  base self n = Ok (Some m) ->
  fit n (random_state self) (X self) (lengths self) = Ok m /\ n_components m = n.
Proof.
  destruct (base_model_cases self n) as [(m' & Hf & ->)|(e & _ & ->)]; [|discriminate].
  intros [= <-]. eauto using fit_n_components.
Qed.

Lemma base_model_None self n :
  base self n = Ok None <->
  exists e, fit n (random_state self) (X self) (lengths self) = Raise e.
Proof.
  destruct (base_model_cases self n) as [(m & Hf & ->)|(e & Hf & ->)]; rewrite Hf.
  - split; [discriminate|]. intros (e & ?). discriminate.
  - split; eauto.
Qed.

Lemma base_model_no_raise self n e : base self n <> Raise e.
Proof.
  destruct (base_model_cases self n) as [(m & _ & ->)|(e' & _ & ->)]; discriminate.
Qed.

(** *** The rounds of the three loops are rounds of the search *)

Lemma bic_body_search self st :
  bic_body hmm_fit hmm_score np_log self st = search_body Float.ltb (bic self) st.
Proof.
  unfold bic_body, bic_try, search_body, bic_crit, search_update.
  destruct (fit _ _ _ _) as [c|[]]; simpl; try reflexivity.
  destruct (hmm_score c _ _) as [logL|[]]; simpl; try reflexivity.
  destruct (bic_value _ _ _ _) as [v|[]]; simpl; try reflexivity.
  destruct (Float.ltb _ _); reflexivity.
Qed.

Lemma dic_body_search self st :
  dic_body hmm_fit hmm_score np_mean self st = search_body Float.gtb (dic self) st.
Proof.
  unfold dic_body, dic_try, search_body, dic_crit, search_update.
  destruct (fit _ _ _ _) as [c|[]]; simpl; try reflexivity.
  destruct (hmm_score c _ _) as [logL|[]]; simpl; try reflexivity.
  destruct (dic_other_scores _ _ _ _ _) as [others|[]]; simpl; try reflexivity.
  destruct (Float.gtb _ _); reflexivity.
Qed.

Lemma cv_body_search self st :
  cv_body hmm_fit hmm_score np_mean KFold_split combine_sequences self st
  = search_body Float.gtb (cv self) st.
Proof.
  unfold cv_body, search_body, cv_crit, search_update.
  destruct (KFold_split _ _) as [folds|e]; simpl; [|reflexivity].
  destruct (cv_folds _ _ _ _ _ _ _) as [logLs|e]; simpl; [|reflexivity].
  destruct (len logLs >? 0); [|reflexivity].
  destruct (Float.gtb _ _); reflexivity.
Qed.

(** *** A search followed by [base_model] *)

Lemma select_via_search {R : Type} better `{!StrictB better} crit self sentinel
    (body : search_state -> result search_state) (k : search_state -> result R) :
  (forall st, body st = search_body better crit st) ->
  match
    while_loop (search_fuel self) (search_cond self) body
      (mkSearch (min_n_components self) sentinel (min_n_components self)) ≫= k
  with
  | Ok a =>
      exists st,
        search_result better crit (min_n_components self) (max_n_components self) sentinel st /\
        k st = Ok a
  | Raise e =>
      (exists n, min_n_components self <= n <= max_n_components self /\ crit n = Raise e) \/
      (exists st, k st = Raise e)
  end.
Proof.
  intros Hbody. rewrite (while_loop_ext _ _ _ Hbody).
  destruct (while_loop _ _ _ _) as [st|e] eqn:Hrun; simpl.
  - apply search_loop_spec in Hrun; [|assumption].
    destruct (k st) eqn:Hk; eauto.
  - left. eapply search_loop_raise; eauto.
Qed.

Lemma bic_crit_not_ValueError self n : bic self n <> Raise ValueError.
Proof. apply try_except_ValueError_not_ValueError. discriminate. Qed.

Lemma dic_crit_not_ValueError self n : dic self n <> Raise ValueError.
Proof. apply try_except_ValueError_not_ValueError. discriminate. Qed.

(** A candidate with a score was fitted on the word's data. *)
Lemma bic_crit_Some self n v :
  bic self n = Ok (Some v) ->
  exists m, fit n (random_state self) (X self) (lengths self) = Ok m.
Proof.
  unfold bic_crit. destruct (fit _ _ _ _) as [m|[]]; simpl; try discriminate. eauto.
Qed.

Lemma dic_crit_Some self n v :
  dic self n = Ok (Some v) ->
  exists m, fit n (random_state self) (X self) (lengths self) = Ok m.
Proof.
  unfold dic_crit. destruct (fit _ _ _ _) as [m|[]]; simpl; try discriminate. eauto.
Qed.

Lemma same_float_ltb v1 v2 :
  v1 = v2 \/ Float.eqb v1 v2 = true -> forall b, Float.ltb v1 b = Float.ltb v2 b.
Proof. intros [->|Heq] b; [reflexivity|]. apply FloatFacts.eqb_ltb_l, Heq. Qed.

Lemma same_float_gtb v1 v2 :
  v1 = v2 \/ Float.eqb v1 v2 = true -> forall b, Float.gtb v1 b = Float.gtb v2 b.
Proof. intros [->|Heq] b; [reflexivity|]. apply FloatFacts.eqb_ltb_r, Heq. Qed.

(** What a search and its [base_model] come to: a foreign exception of a
    candidate, or [base_model] at a state count that the search kept. *)
Lemma search_select_cases better `{!StrictB better} crit self sentinel body :
  (forall st, body st = search_body better crit st) ->
  let sel :=
    while_loop (search_fuel self) (search_cond self) body
      (mkSearch (min_n_components self) sentinel (min_n_components self))
    ≫= (fun st => base self (best_comp_count st)) in
  (exists e, sel = Raise e /\
   exists n, min_n_components self <= n <= max_n_components self /\ crit n = Raise e) \/
  (exists st,
     sel = base self (best_comp_count st) /\
     search_result better crit (min_n_components self) (max_n_components self) sentinel st).
Proof.
  intros Hbody sel.
  pose proof (select_via_search better crit self sentinel body
                (fun st => base self (best_comp_count st)) Hbody) as H.
  fold sel in H. destruct sel as [r|e].
  - destruct H as (st & Hres & Hk). right. exists st. split; [congruence|exact Hres].
  - destruct H as [(n & Hn & Hc)|(st & Hk)].
    + left. eauto.
    + elim (base_model_no_raise _ _ _ Hk).
Qed.

Lemma search_select_spec better `{!StrictB better} crit self sentinel body :
  (forall st, body st = search_body better crit st) ->
  (forall n, crit n <> Raise ValueError) ->
  let sel :=
    while_loop (search_fuel self) (search_cond self) body
      (mkSearch (min_n_components self) sentinel (min_n_components self))
    ≫= (fun st => base self (best_comp_count st)) in
  (sel = Raise OtherException /\
   exists n, min_n_components self <= n <= max_n_components self /\
             crit n = Raise OtherException) \/
  (exists st,
     sel = base self (best_comp_count st) /\
     search_result better crit (min_n_components self) (max_n_components self) sentinel st).
Proof.
  intros Hbody Hve sel.
  destruct (search_select_cases better crit self sentinel body Hbody)
    as [(e & Hsel & n & Hn & Hc)|?]; [|right; assumption].
  destruct e; [elim (Hve n Hc)|]. left. eauto.
Qed.

(** *** SelectorBIC *)

(** C4, as the code has it. In [SelectorBIC.select] a candidate [n] that
    fits and scores, and whose [p = n * n + 2 * n * T - 1] is within the
    range of a float, has the score [-2 * logL + p * ln N], with
    [T = sum(lengths)] and [N] the number of rows of [X]; beyond that range
    the round raises (an [OverflowError]). Unless a round raises a foreign
    exception, the result is [base_model] at a state count [best_n] whose
    score [best_bic] no candidate in range is strictly below; [best_bic] is
    the sentinel [1e8] with [best_n] the first of the range, or the score
    of [best_n], strictly below the sentinel; and of two state counts with
    the same score, the larger is never [best_n]. *)
Theorem SelectorBIC_select_spec self :
  let lo := min_n_components self in
  let hi := max_n_components self in
  let T := sum_Z (lengths self) in
  let N := len (X self) in
  (forall n candidate logL,
     fit n (random_state self) (X self) (lengths self) = Ok candidate ->
     hmm_score candidate (X self) (lengths self) = Ok logL ->
     let p := Float.of_Z (n * n + 2 * n * T - 1) in
     (PrimFloat.is_infinity p = false ->
      bic self n = Ok (Some ((-2) * logL + p * np_log N)%float)) /\
     (PrimFloat.is_infinity p = true -> bic self n = Raise OtherException)) /\
  ((SelectorBIC_select hmm_fit hmm_score np_log self = Raise OtherException /\
    exists n, lo <= n <= hi /\ bic self n = Raise OtherException) \/
   (exists best_bic best_n,
      SelectorBIC_select hmm_fit hmm_score np_log self = base self best_n /\
      (forall n v, lo <= n <= hi -> bic self n = Ok (Some v) ->
         Float.ltb v best_bic = false) /\
      ((best_bic = 100000000%float /\ best_n = lo) \/
       (lo <= best_n <= hi /\ bic self best_n = Ok (Some best_bic) /\
        Float.ltb best_bic 100000000 = true)) /\
      (forall n1 n2 v1 v2, lo <= n1 -> n1 < n2 -> n2 <= hi ->
         bic self n1 = Ok (Some v1) -> bic self n2 = Ok (Some v2) ->
         v1 = v2 \/ Float.eqb v1 v2 = true -> best_n <> n2))).
Proof.
  intros lo hi T N. split.
  - intros n c logL Hfit Hscore p.
    unfold bic_crit, bic_value, bic_p_val, Float.of_int.
    rewrite Hfit. simpl. rewrite Hscore. simpl.
    replace (n ^ 2) with (n * n) by lia. fold T p.
    split; intros ->; reflexivity.
  - destruct (search_select_spec Float.ltb (bic self) self 100000000%float
                (bic_body hmm_fit hmm_score np_log self) (bic_body_search self)
                (bic_crit_not_ValueError self)) as [?|(st & Hsel & Hres)]; [left; assumption|].
    right. exists (best_value st), (best_comp_count st).
    split; [exact Hsel|]. split; [|split].
    + intros n v Hn Hv. destruct Hres as (Hall & _).
      destruct (Hall n Hn) as (r & Hr & Hno). apply Hno. congruence.
    + destruct Hres as (_ & [?|(? & ? & ? & _)]); [left; assumption|right; auto].
    + intros n1 n2 v1 v2 H1 H12 H2 Hv1 Hv2 Hsame.
      eapply search_result_tie; eauto using same_float_ltb.
Qed.

(** *** SelectorDIC *)

Lemma dic_other_scores_filter self c items acc :
  dic_other_scores hmm_score self c items acc
  = dic_other_scores hmm_score self c
      (filter (fun item => item.1 <> this_word self) items) acc.
Proof.
  revert acc. induction items as [|[w [x l]] items IH]; intros acc; [reflexivity|].
  rewrite filter_cons. simpl.
  destruct (String.eqb_spec w (this_word self)) as [Heq|Hne]; simpl.
  - rewrite decide_False by (simpl; intros H; apply H, Heq). apply IH.
  - rewrite decide_True by exact Hne. simpl.
    destruct (String.eqb_spec w (this_word self)); [contradiction|]. simpl.
    destruct (hmm_score c x l); simpl; [apply IH|reflexivity].
Qed.

(** When every other word scores, the loop collects the scores in order. *)
Lemma dic_other_scores_app self c items acc alts :
  Forall (fun item => item.1 <> this_word self) items ->
  Forall2 (fun item alt => hmm_score c item.2.1 item.2.2 = Ok alt) items alts ->
  dic_other_scores hmm_score self c items acc = Ok (acc ++ alts).
Proof.
  intros Hall HF. revert acc.
  induction HF as [|[w [x l]] alt items alts Hs HF IH]; intros acc.
  - simpl. rewrite app_nil_r. reflexivity.
  - apply Forall_cons in Hall as [Hw Hall]. simpl in Hw, Hs. simpl.
    destruct (String.eqb_spec w (this_word self)); [contradiction|]. simpl.
    rewrite Hs. simpl. rewrite (IH Hall), <- app_assoc. reflexivity.
Qed.

Lemma dic_other_scores_Ok self c alts :
  Forall2 (fun item alt => hmm_score c item.2.1 item.2.2 = Ok alt)
    (dic_other_words self) alts ->
  dic_other_scores hmm_score self c (hwords self) [] = Ok alts.
Proof.
  intros HF. rewrite dic_other_scores_filter.
  apply (dic_other_scores_app self c _ [] alts); [|exact HF].
  apply Forall_forall. intros item Hin. apply list_elem_of_filter in Hin. tauto.
Qed.

(** A [ValueError] of another word's score, with no foreign exception
    among the other words, is the exception of the loop. *)
Lemma dic_other_scores_app_ValueError self c items acc :
  Forall (fun item => item.1 <> this_word self) items ->
  Forall (fun item => hmm_score c item.2.1 item.2.2 <> Raise OtherException) items ->
  Exists (fun item => hmm_score c item.2.1 item.2.2 = Raise ValueError) items ->
  dic_other_scores hmm_score self c items acc = Raise ValueError.
Proof.
  intros Hall Hno Hex. revert acc.
  induction items as [|[w [x l]] items IH]; intros acc.
  - inversion Hex.
  - apply Forall_cons in Hall as [Hw Hall]. apply Forall_cons in Hno as [Hn Hno].
    simpl in Hw, Hn. simpl.
    destruct (String.eqb_spec w (this_word self)); [contradiction|]. simpl.
    destruct (hmm_score c x l) as [alt|[]] eqn:Hs; simpl; [|reflexivity|congruence].
    apply IH; [assumption..|].
    apply Exists_cons in Hex as [Hx|Hx]; [simpl in Hx; congruence|exact Hx].
Qed.

Lemma dic_other_scores_ValueError self c :
  Forall (fun item => hmm_score c item.2.1 item.2.2 <> Raise OtherException)
    (dic_other_words self) ->
  Exists (fun item => hmm_score c item.2.1 item.2.2 = Raise ValueError)
    (dic_other_words self) ->
  dic_other_scores hmm_score self c (hwords self) [] = Raise ValueError.
Proof.
  intros Hno Hex. rewrite dic_other_scores_filter.
  apply dic_other_scores_app_ValueError; [|assumption..].
  apply Forall_forall. intros item Hin. apply list_elem_of_filter in Hin. tauto.
Qed.

(** C5. In [SelectorDIC.select] a candidate [n] that fits and scores its
    own word and every other word has the score [logL - mean] of its scores
    on the other words; when the score of one of the other words raises a
    [ValueError], the whole round of [n] is skipped and the running best is
    as before. Unless a candidate raises a foreign exception, the result is
    a fresh [base_model] at a state count [best_n] whose score [best_dic] no
    candidate in range is strictly above; [best_dic] is the sentinel [-1e8]
    with [best_n] the first of the range, or the score of [best_n], strictly
    above the sentinel; and of two state counts with the same score, the
    larger is never [best_n]. *)
Theorem SelectorDIC_select_spec self :
  let lo := min_n_components self in
  let hi := max_n_components self in
  let scores (candidate : GaussianHMM params) (item : string * (matrix * list Z)) :=
    hmm_score candidate item.2.1 item.2.2 in
  (forall n candidate logL alts,
     fit n (random_state self) (X self) (lengths self) = Ok candidate ->
     hmm_score candidate (X self) (lengths self) = Ok logL ->
     Forall2 (fun item alt => scores candidate item = Ok alt) (dic_other_words self) alts ->
     dic self n = Ok (Some (logL - np_mean alts)%float)) /\
  (forall n candidate logL,
     fit n (random_state self) (X self) (lengths self) = Ok candidate ->
     hmm_score candidate (X self) (lengths self) = Ok logL ->
     Forall (fun item => scores candidate item <> Raise OtherException) (dic_other_words self) ->
     Exists (fun item => scores candidate item = Raise ValueError) (dic_other_words self) ->
     dic self n = Ok None /\
     forall st, cur_comp_count st = n ->
       dic_body hmm_fit hmm_score np_mean self st = Ok (next_comp st)) /\
  ((SelectorDIC_select hmm_fit hmm_score np_mean self = Raise OtherException /\
    exists n, lo <= n <= hi /\ dic self n = Raise OtherException) \/
   (exists best_dic best_n,
      SelectorDIC_select hmm_fit hmm_score np_mean self = base self best_n /\
      (forall n v, lo <= n <= hi -> dic self n = Ok (Some v) ->
         Float.gtb v best_dic = false) /\
      ((best_dic = (-100000000)%float /\ best_n = lo) \/
       (lo <= best_n <= hi /\ dic self best_n = Ok (Some best_dic) /\
        Float.gtb best_dic (-100000000) = true)) /\
      (forall n1 n2 v1 v2, lo <= n1 -> n1 < n2 -> n2 <= hi ->
         dic self n1 = Ok (Some v1) -> dic self n2 = Ok (Some v2) ->
         v1 = v2 \/ Float.eqb v1 v2 = true -> best_n <> n2))).
Proof.
  intros lo hi scores. split; [|split].
  - intros n c logL alts Hfit Hscore Halts. unfold dic_crit.
    rewrite Hfit. simpl. rewrite Hscore. simpl.
    rewrite (dic_other_scores_Ok self c alts Halts). reflexivity.
  - intros n c logL Hfit Hscore Hno Hex.
    assert (Hcrit : dic self n = Ok None).
    { unfold dic_crit. rewrite Hfit. simpl. rewrite Hscore. simpl.
      rewrite (dic_other_scores_ValueError self c Hno Hex). reflexivity. }
    split; [exact Hcrit|]. intros st <-.
    rewrite dic_body_search. unfold search_body. rewrite Hcrit. reflexivity.
  - destruct (search_select_spec Float.gtb (dic self) self (-100000000)%float
                (dic_body hmm_fit hmm_score np_mean self) (dic_body_search self)
                (dic_crit_not_ValueError self)) as [?|(st & Hsel & Hres)]; [left; assumption|].
    right. exists (best_value st), (best_comp_count st).
    split; [exact Hsel|]. split; [|split].
    + intros n v Hn Hv. destruct Hres as (Hall & _).
      destruct (Hall n Hn) as (r & Hr & Hno). apply Hno. congruence.
    + destruct Hres as (_ & [?|(? & ? & ? & _)]); [left; assumption|right; auto].
    + intros n1 n2 v1 v2 H1 H12 H2 Hv1 Hv2 Hsame.
      eapply search_result_tie; eauto using same_float_gtb.
Qed.

(** *** SelectorCV *)

#[local] Abbreviation cv_fold' := (cv_fold hmm_fit hmm_score combine_sequences).
#[local] Abbreviation cv_folds' := (cv_folds hmm_fit hmm_score combine_sequences).




(** C7. In [SelectorCV.select] the fold count asked of [KFold] is 3 for a
    word with three training sequences or more and the number of training
    sequences for a word with fewer; it never exceeds the number of
    sequences, and every candidate's round asks for this count. *)
Theorem cv_split_count_spec self :
  let n_sequences := len (sequences self) in
  (3 <= n_sequences -> cv_split_count self = 3) /\
  (n_sequences < 3 -> cv_split_count self = n_sequences) /\
  cv_split_count self <= n_sequences /\
  forall st,
    cv_body hmm_fit hmm_score np_mean KFold_split combine_sequences self st
    = (folds ← KFold_split (if n_sequences <? 3 then n_sequences else 3) (sequences self);
       logLs ← cv_folds' self (cur_comp_count st) folds [];
       Ok (search_update Float.gtb st
             (if len logLs >? 0 then Some (np_mean logLs) else None))).
Proof.
  intros n. unfold cv_split_count. fold n.
  split; [|split; [|split]].
  - intros H. destruct (Z.ltb_spec n 3); lia.
  - intros H. destruct (Z.ltb_spec n 3); lia.
  - destruct (Z.ltb_spec n 3); lia.
  - intros st. rewrite cv_body_search. unfold search_body, cv_crit, cv_split_count.
    fold n. destruct (KFold_split _ _); simpl; [|reflexivity].
    destruct (cv_folds' _ _ _ _); reflexivity.
Qed.

(** A fold absorbs a [ValueError] of its fit or of its score. *)
Lemma cv_fold_not_ValueError self cur fold logLs :
  cv_fold' self cur fold logLs <> Raise ValueError.
Proof.
  unfold cv_fold. destruct fold as [tr te].
  destruct (cv_train_data _ _ _ _) as [x l].
  destruct (len x >=? cur); [|discriminate].
  destruct (cv_fold_try _ _ _ _ _ _ _) as [v|[]]; discriminate.
Qed.

Lemma cv_folds_not_ValueError self cur folds logLs :
  cv_folds' self cur folds logLs <> Raise ValueError.
Proof.
  revert logLs. induction folds as [|f folds IH]; intros logLs; simpl; [discriminate|].
  destruct (cv_fold' self cur f logLs) as [l|e] eqn:Hf; simpl; [apply IH|].
  intros [= ->]. exact (cv_fold_not_ValueError _ _ _ _ Hf).
Qed.

(** A [ValueError] leaves a round only from [KFold]. *)
Lemma cv_crit_ValueError self n :
  cv self n = Raise ValueError ->
  KFold_split (cv_split_count self) (sequences self) = Raise ValueError.
Proof.
  unfold cv_crit. destruct (KFold_split _ _) as [folds|e]; simpl; [|congruence].
  destruct (cv_folds' self n folds []) as [l|e] eqn:Hf; simpl; [discriminate|].
  intros [= ->]. elim (cv_folds_not_ValueError _ _ _ _ Hf).
Qed.

(** When no fit succeeds at [cur], the folds add nothing. *)
Lemma cv_folds_no_fit self cur folds logLs :
  (forall x l, fit cur (random_state self) x l = Raise ValueError) ->
  cv_folds' self cur folds logLs = Ok logLs.
Proof.
  intros Hfit. induction folds as [|[tr te] folds IH]; [reflexivity|].
  assert (Hfold : cv_fold' self cur (tr, te) logLs = Ok logLs).
  { unfold cv_fold, cv_fold_try.
    destruct (cv_train_data _ _ _ _) as [x l]. destruct (cv_test_data _ _ _ _) as [x' l'].
    destruct (len x >=? cur); [|reflexivity]. rewrite Hfit. reflexivity. }
  cbn [cv_folds]. rewrite Hfold. exact IH.
Qed.

Lemma cv_crit_no_fit self n folds :
  KFold_split (cv_split_count self) (sequences self) = Ok folds ->
  (forall x l, fit n (random_state self) x l = Raise ValueError) ->
  cv self n = Ok None.
Proof.
  intros Hk Hfit. unfold cv_crit. rewrite Hk. simpl.
  rewrite (cv_folds_no_fit _ _ _ _ Hfit). reflexivity.
Qed.

(** *** The state count of the result *)

Lemma bic_crit_no_fit self n :
  fit n (random_state self) (X self) (lengths self) = Raise ValueError ->
  bic self n = Ok None.
Proof. intros H. unfold bic_crit. rewrite H. reflexivity. Qed.

Lemma dic_crit_no_fit self n :
  fit n (random_state self) (X self) (lengths self) = Raise ValueError ->
  dic self n = Ok None.
Proof. intros H. unfold dic_crit. rewrite H. reflexivity. Qed.

Lemma cv_crit_KFold self n r :
  cv self n = Ok r ->
  exists folds, KFold_split (cv_split_count self) (sequences self) = Ok folds.
Proof.
  unfold cv_crit. destruct (KFold_split _ _) as [folds|e]; simpl; [eauto|discriminate].
Qed.

(** The model of a search is fitted at the state count the search kept. *)
Lemma search_result_model better crit self sentinel st m :
  search_result better crit (min_n_components self) (max_n_components self) sentinel st ->
  base self (best_comp_count st) = Ok (Some m) ->
  (min_n_components self <= max_n_components self ->
   min_n_components self <= n_components m <= max_n_components self) /\
  (max_n_components self < min_n_components self ->
   n_components m = min_n_components self).
Proof.
  intros Hres Hbase. apply base_model_Some in Hbase as [_ ->]. split.
  - intros Hle. eapply search_result_range; eauto.
  - intros Hlt. destruct Hres as (_ & [[_ ->]|(? & _)]); [reflexivity|lia].
Qed.

(** C2, as the code has it. [SelectorConstant.select] returns a model with
    [n_constant] states, whatever the search range, or absence. When
    [SelectorBIC], [SelectorDIC] or [SelectorCV] returns a model, its state
    count lies in [[min_n_components, max_n_components]] when the range is
    not empty, and is [min_n_components] when it is. *)
Theorem select_state_count self m :
  let lo := min_n_components self in
  let hi := max_n_components self in
  let searched (r : result (option (GaussianHMM params))) :=
    r = Ok (Some m) ->
    (lo <= hi -> lo <= n_components m <= hi) /\ (hi < lo -> n_components m = lo) in
  (SelectorConstant_select hmm_fit self = Ok (Some m) ->
   n_components m = n_constant self) /\
  searched (SelectorBIC_select hmm_fit hmm_score np_log self) /\
  searched (SelectorDIC_select hmm_fit hmm_score np_mean self) /\
  searched (SelectorCV_select hmm_fit hmm_score np_mean KFold_split combine_sequences self).
Proof.
  intros lo hi searched. split; [|split; [|split]]; unfold searched.
  - unfold SelectorConstant_select. intros H. apply base_model_Some in H. tauto.
  - intros Hsel.
    destruct (search_select_cases Float.ltb (bic self) self 100000000%float
                (bic_body hmm_fit hmm_score np_log self) (bic_body_search self))
      as [(e & He & _)|(st & Hst & Hres)].
    + unfold SelectorBIC_select in Hsel. congruence.
    + eapply search_result_model; [exact Hres|].
      unfold SelectorBIC_select in Hsel. congruence.
  - intros Hsel.
    destruct (search_select_cases Float.gtb (dic self) self (-100000000)%float
                (dic_body hmm_fit hmm_score np_mean self) (dic_body_search self))
      as [(e & He & _)|(st & Hst & Hres)].
    + unfold SelectorDIC_select in Hsel. congruence.
    + eapply search_result_model; [exact Hres|].
      unfold SelectorDIC_select in Hsel. congruence.
  - intros Hsel.
    destruct (search_select_cases Float.gtb (cv self) self (-100000)%float
                (cv_body hmm_fit hmm_score np_mean KFold_split combine_sequences self)
                (cv_body_search self))
      as [(e & He & _)|(st & Hst & Hres)].
    + unfold SelectorCV_select in Hsel. congruence.
    + eapply search_result_model; [exact Hres|].
      unfold SelectorCV_select in Hsel. congruence.
Qed.

(** *** Failures of the fit and of the score *)

(** When a search returns absence, the fit at the first state count of the
    range failed and no candidate beat the sentinel. *)
Lemma search_result_None better crit self sentinel st :
  (forall n v, crit n = Ok (Some v) ->
     exists m, fit n (random_state self) (X self) (lengths self) = Ok m) ->
  search_result better crit (min_n_components self) (max_n_components self) sentinel st ->
  base self (best_comp_count st) = Ok None ->
  (exists e, fit (min_n_components self) (random_state self) (X self) (lengths self)
             = Raise e) /\
  forall n, min_n_components self <= n <= max_n_components self ->
    crit n = Ok None \/ exists v, crit n = Ok (Some v) /\ better v sentinel = false.
Proof.
  intros Hfit (Hall & Hbest) Hbase. apply base_model_None in Hbase as (e & He).
  destruct Hbest as [[Hs Hn]|(_ & Hc & _)].
  - rewrite Hn in He. split; [eauto|].
    intros n Hn'. destruct (Hall n Hn') as ([v|] & Hr & Hno); [right|left; exact Hr].
    exists v. split; [exact Hr|]. rewrite <- Hs. apply Hno. reflexivity.
  - destruct (Hfit _ _ Hc) as (m & Hm). congruence.
Qed.

(** C1, as the code has it. A [ValueError] of a fit or of a score never
    leaves [select]: [SelectorConstant.select] always returns, and returns
    absence exactly when its one fit, at [n_constant], fails;
    [SelectorBIC.select] and [SelectorDIC.select] never raise a
    [ValueError], and return absence only when the fit at
    [min_n_components] failed and every candidate in range was skipped or
    did not beat the sentinel; [SelectorCV.select], when [KFold] returns
    its folds (or the range is empty), never raises a [ValueError] and is
    [base_model] at the state count [best_n] that its search kept (the
    first of the range when no mean beat the sentinel [-1e5], and else a
    state count of the range whose mean over the folds is above the
    sentinel, is not exceeded, and is not equalled earlier), so that it
    returns absence exactly when the fit of [best_n] fails on the whole
    data of the word. *)
Theorem select_absorbs_failures self :
  let lo := min_n_components self in
  let hi := max_n_components self in
  let fit_fails n :=
    exists e, fit n (random_state self) (X self) (lengths self) = Raise e in
  ((exists r, SelectorConstant_select hmm_fit self = Ok r) /\
   (SelectorConstant_select hmm_fit self = Ok None <-> fit_fails (n_constant self))) /\
  (SelectorBIC_select hmm_fit hmm_score np_log self <> Raise ValueError /\
   (SelectorBIC_select hmm_fit hmm_score np_log self = Ok None ->
    fit_fails lo /\
    forall n, lo <= n <= hi ->
      bic self n = Ok None \/
      exists v, bic self n = Ok (Some v) /\ Float.ltb v 100000000 = false)) /\
  (SelectorDIC_select hmm_fit hmm_score np_mean self <> Raise ValueError /\
   (SelectorDIC_select hmm_fit hmm_score np_mean self = Ok None ->
    fit_fails lo /\
    forall n, lo <= n <= hi ->
      dic self n = Ok None \/
      exists v, dic self n = Ok (Some v) /\ Float.gtb v (-100000000) = false)) /\
  (hi < lo \/
   (exists folds, KFold_split (cv_split_count self) (sequences self) = Ok folds) ->
   SelectorCV_select hmm_fit hmm_score np_mean KFold_split combine_sequences self
   <> Raise ValueError /\
   ((SelectorCV_select hmm_fit hmm_score np_mean KFold_split combine_sequences self
     = Raise OtherException /\
     exists n, lo <= n <= hi /\ cv self n = Raise OtherException) \/
    (exists best_logL best_n,
       SelectorCV_select hmm_fit hmm_score np_mean KFold_split combine_sequences self
       = base self best_n /\
       (SelectorCV_select hmm_fit hmm_score np_mean KFold_split combine_sequences self
        = Ok None <-> fit_fails best_n) /\
       (forall n v, lo <= n <= hi -> cv self n = Ok (Some v) ->
          Float.gtb v best_logL = false) /\
       ((best_logL = (-100000)%float /\ best_n = lo) \/
        (lo <= best_n <= hi /\ cv self best_n = Ok (Some best_logL) /\
         Float.gtb best_logL (-100000) = true)) /\
       (forall n1 n2 v1 v2, lo <= n1 -> n1 < n2 -> n2 <= hi ->
          cv self n1 = Ok (Some v1) -> cv self n2 = Ok (Some v2) ->
          v1 = v2 \/ Float.eqb v1 v2 = true -> best_n <> n2)))).
Proof.
  intros lo hi fit_fails. split; [|split; [|split]].
  - unfold SelectorConstant_select. split.
    + destruct (base_model_cases self (n_constant self)) as [(m & _ & ->)|(e & _ & ->)]; eauto.
    + apply base_model_None.
  - destruct (search_select_spec Float.ltb (bic self) self 100000000%float
                (bic_body hmm_fit hmm_score np_log self) (bic_body_search self)
                (bic_crit_not_ValueError self)) as [(He & _)|(st & Hst & Hres)];
      fold (SelectorBIC_select hmm_fit hmm_score np_log self) in *.
    + rewrite He. split; discriminate.
    + rewrite Hst. split; [apply base_model_no_raise|].
      intros Hnone. eapply search_result_None; eauto using bic_crit_Some.
  - destruct (search_select_spec Float.gtb (dic self) self (-100000000)%float
                (dic_body hmm_fit hmm_score np_mean self) (dic_body_search self)
                (dic_crit_not_ValueError self)) as [(He & _)|(st & Hst & Hres)];
      fold (SelectorDIC_select hmm_fit hmm_score np_mean self) in *.
    + rewrite He. split; discriminate.
    + rewrite Hst. split; [apply base_model_no_raise|].
      intros Hnone. eapply search_result_None; eauto using dic_crit_Some.
  - destruct (search_select_cases Float.gtb (cv self) self (-100000)%float
                (cv_body hmm_fit hmm_score np_mean KFold_split combine_sequences self)
                (cv_body_search self)) as [(e & He & n & Hnr & Hn)|(st & Hst & Hres)];
      fold (SelectorCV_select hmm_fit hmm_score np_mean KFold_split combine_sequences self)
        in *.
    + intros [Hlt|(folds & Hfolds)]; [fold lo hi in Hnr; lia|].
      assert (e = OtherException) as ->.
      { destruct e; [|reflexivity]. apply cv_crit_ValueError in Hn. congruence. }
      rewrite He. split; [discriminate|]. left. split; [reflexivity|]. eauto.
    + intros _. rewrite Hst. split; [apply base_model_no_raise|]. right.
      exists (best_value st), (best_comp_count st).
      split; [reflexivity|]. split; [apply base_model_None|]. split; [|split].
      * intros n v Hn Hv. destruct Hres as (Hall & _).
        destruct (Hall n Hn) as (r & Hr & Hno). apply Hno. congruence.
      * destruct Hres as (_ & [?|(? & ? & ? & _)]); [left; assumption|right; auto].
      * intros n1 n2 v1 v2 H1 H12 H2 Hv1 Hv2 Hsame.
        eapply search_result_tie; eauto using same_float_gtb.
Qed.

(** When the fit fails on the training data of every fold that has at
    least [cur] rows, the folds add nothing. *)
Lemma cv_folds_no_fold_fit self cur folds logLs :
  (forall train test, (train, test) ∈ folds ->
     cur <= len (combine_sequences train (sequences self)).1 ->
     fit cur (random_state self) (combine_sequences train (sequences self)).1
       (combine_sequences train (sequences self)).2 = Raise ValueError) ->
  cv_folds' self cur folds logLs = Ok logLs.
Proof.
  induction folds as [|[tr te] folds IH]; intros Hfit; [reflexivity|].
  assert (Hfold : cv_fold' self cur (tr, te) logLs = Ok logLs).
  { unfold cv_fold, cv_fold_try, cv_train_data, cv_test_data.
    specialize (Hfit tr te ltac:(left)).
    destruct (combine_sequences tr (sequences self)) as [x l].
    destruct (len x >=? cur) eqn:Hlen; [|reflexivity].
    cbn in Hfit. rewrite Hfit by (apply Z.geb_le, Hlen). reflexivity. }
  cbn [cv_folds]. rewrite Hfold. apply IH.
  intros train test Hin. apply (Hfit train test). right. exact Hin.
Qed.

(** C6, as the code has it. When one state count [n0] of the range is the
    only one that the trainer fits on the data [(X, lengths)] of the word,
    [SelectorBIC] and [SelectorDIC] return the model with [n0] states
    provided the round of [n0] computes a score that strictly beats the
    sentinel ([BIC < 1e8], [DIC > -1e8]). [SelectorCV] fits on the training
    folds: it returns the model with [n0] states provided [KFold] splits,
    every other state count fails to fit on every training fold that has
    at least that many rows, and the round of [n0] computes a mean over the
    folds [> -1e5]. *)
Theorem select_single_fit self n0 m0 :
  min_n_components self <= n0 <= max_n_components self ->
  fit n0 (random_state self) (X self) (lengths self) = Ok m0 ->
  (forall n, min_n_components self <= n <= max_n_components self -> n <> n0 ->
     fit n (random_state self) (X self) (lengths self) = Raise ValueError) ->
  (forall v, bic self n0 = Ok (Some v) -> Float.ltb v 100000000 = true ->
     SelectorBIC_select hmm_fit hmm_score np_log self = Ok (Some m0)) /\
  (forall v, dic self n0 = Ok (Some v) -> Float.gtb v (-100000000) = true ->
     SelectorDIC_select hmm_fit hmm_score np_mean self = Ok (Some m0)) /\
  (forall folds v,
     KFold_split (cv_split_count self) (sequences self) = Ok folds ->
     (forall n train test,
        min_n_components self <= n <= max_n_components self -> n <> n0 ->
        (train, test) ∈ folds ->
        n <= len (combine_sequences train (sequences self)).1 ->
        fit n (random_state self) (combine_sequences train (sequences self)).1
          (combine_sequences train (sequences self)).2 = Raise ValueError) ->
     cv self n0 = Ok (Some v) -> Float.gtb v (-100000) = true ->
     SelectorCV_select hmm_fit hmm_score np_mean KFold_split combine_sequences self
     = Ok (Some m0)) /\
  n_components m0 = n0.
Proof.
  intros Hn0 Hfit0 Hothers.
  assert (Hbase : base self n0 = Ok (Some m0)).
  { unfold base_model. rewrite Hfit0. reflexivity. }
  split; [|split; [|split]].
  - intros v Hv Hbeat.
    destruct (search_select_cases Float.ltb (bic self) self 100000000%float
                (bic_body hmm_fit hmm_score np_log self) (bic_body_search self))
      as [(e & _ & n & Hn & Hc)|(st & Hst & Hres)].
    + destruct (decide (n = n0)) as [->|Hne]; [congruence|].
      rewrite (bic_crit_no_fit _ _ (Hothers _ Hn Hne)) in Hc. discriminate.
    + unfold SelectorBIC_select. rewrite Hst.
      destruct (search_result_unique _ _ _ _ _ n0 v Hres Hn0 Hv Hbeat) as [-> _];
        [|exact Hbase].
      intros n Hn Hne. apply bic_crit_no_fit, Hothers; assumption.
  - intros v Hv Hbeat.
    destruct (search_select_cases Float.gtb (dic self) self (-100000000)%float
                (dic_body hmm_fit hmm_score np_mean self) (dic_body_search self))
      as [(e & _ & n & Hn & Hc)|(st & Hst & Hres)].
    + destruct (decide (n = n0)) as [->|Hne]; [congruence|].
      rewrite (dic_crit_no_fit _ _ (Hothers _ Hn Hne)) in Hc. discriminate.
    + unfold SelectorDIC_select. rewrite Hst.
      destruct (search_result_unique _ _ _ _ _ n0 v Hres Hn0 Hv Hbeat) as [-> _];
        [|exact Hbase].
      intros n Hn Hne. apply dic_crit_no_fit, Hothers; assumption.
  - intros folds v Hfolds Hfoldfits Hv Hbeat.
    assert (Hskip : forall n, min_n_components self <= n <= max_n_components self ->
              n <> n0 -> cv self n = Ok None).
    { intros n Hn Hne. unfold cv_crit. rewrite Hfolds. simpl.
      rewrite cv_folds_no_fold_fit; [reflexivity|].
      intros train test Hin Hlen. apply (Hfoldfits n train test); assumption. }
    destruct (search_select_cases Float.gtb (cv self) self (-100000)%float
                (cv_body hmm_fit hmm_score np_mean KFold_split combine_sequences self)
                (cv_body_search self))
      as [(e & _ & n & Hn & Hc)|(st & Hst & Hres)].
    + destruct (decide (n = n0)) as [->|Hne]; [congruence|].
      rewrite (Hskip _ Hn Hne) in Hc. discriminate.
    + unfold SelectorCV_select. rewrite Hst.
      destruct (search_result_unique _ _ _ _ _ n0 v Hres Hn0 Hv Hbeat Hskip) as [-> _].
      exact Hbase.
  - eapply fit_n_components; eauto.
Qed.

End SelectorFacts.

(** ** Dictionaries *)

Lemma dict_get_Some {V} (d : dict V) k v : dict_get d k = Some v -> (k, v) ∈ d.
Proof.
  induction d as [|[k' v'] d IH]; simpl; [discriminate|].
  destruct (String.eqb_spec k' k) as [->|Hne].
  - intros [= ->]. left.
  - intros H. right. auto.
Qed.

Lemma dict_get_None {V} (d : dict V) k : dict_get d k = None <-> k ∉ dict_keys d.
Proof.
  induction d as [|[k' v'] d IH]; simpl.
  - split; [intros _; apply not_elem_of_nil|reflexivity].
  - rewrite not_elem_of_cons. destruct (String.eqb_spec k' k) as [->|Hne].
    + split; [discriminate|]. intros [H _]. contradiction.
    + rewrite IH. split; [intros H; split; [congruence|exact H]|tauto].
Qed.

Lemma dict_get_key {V} (d : dict V) k :
  k ∈ dict_keys d -> exists v, dict_get d k = Some v /\ (k, v) ∈ d.
Proof.
  intros Hin. destruct (dict_get d k) as [v|] eqn:Hget.
  - exists v. split; [reflexivity|]. apply dict_get_Some, Hget.
  - apply dict_get_None in Hget. contradiction.
Qed.

(** In a list without repeats an element splits the list in one way. *)
Lemma NoDup_split_unique {A} (x : A) (a b a' b' : list A) :
  NoDup (a ++ x :: b) -> a ++ x :: b = a' ++ x :: b' -> a = a'.
Proof.
  revert a'. induction a as [|y a IH]; intros a' Hnd Heq.
  - destruct a' as [|y' a']; [reflexivity|].
    simpl in Heq. injection Heq as <- Hb. simpl in Hnd.
    apply NoDup_cons in Hnd as [Hx _]. exfalso. apply Hx. rewrite Hb.
    apply elem_of_app. right. left.
  - destruct a' as [|y' a']; simpl in Heq.
    + injection Heq as -> Hb. simpl in Hnd.
      apply NoDup_cons in Hnd as [Hx _]. exfalso. apply Hx.
      apply elem_of_app. right. left.
    + injection Heq as <- Hb. f_equal. simpl in Hnd.
      apply NoDup_cons in Hnd as [_ Hnd]. eapply IH; eauto.
Qed.

(** ** Properties of the recognizer *)

Section RecognizerFacts.

Context {params : Type}.
Variable hmm_score : GaussianHMM params -> matrix -> list Z -> result float.

#[local] Abbreviation step := (recognize_word hmm_score).
#[local] Abbreviation steps := (recognize_words hmm_score).

(** The three ways a pass of the loop returns. *)
Lemma recognize_word_cases models Xl st k st' :
  step models Xl st k = Ok st' ->
  (exists logL, word_score hmm_score models Xl k = Some logL /\
     p_hash st' = <[k := logL]> (p_hash st) /\
     ((Float.gtb logL (best_score st) = true /\
       best_score st' = logL /\ best_word st' = Some k) \/
      (Float.gtb logL (best_score st) = false /\
       best_score st' = best_score st /\ best_word st' = best_word st))) \/
  (word_score hmm_score models Xl k = None /\ st' = st).
Proof.
  unfold recognize_word, recognize_try, word_score.
  destruct (dict_get models k) as [m|]; simpl; [|discriminate].
  destruct (hmm_score m Xl.1 Xl.2) as [logL|[]]; simpl; [| |discriminate].
  - destruct (Float.gtb logL (best_score st)) eqn:Hgt; intros [= <-]; left;
      exists logL; simpl; auto 10.
  - intros [= <-]. right. auto.
Qed.

(** The probabilities after the loop: the score of every key that has one,
    and what was there before for the rest. *)
Lemma recognize_words_p_hash models Xl keys st st' :
  steps models Xl keys st = Ok st' ->
  forall w,
    p_hash st' !! w
    = match word_score hmm_score models Xl w with
      | Some logL => if decide (w ∈ keys) then Some logL else p_hash st !! w
      | None => p_hash st !! w
      end.
Proof.
  revert st. induction keys as [|k keys IH]; intros st; cbn [recognize_words].
  - intros [= <-] w. destruct (word_score hmm_score models Xl w); [|reflexivity].
    rewrite decide_False; [reflexivity|apply not_elem_of_nil].
  - destruct (step models Xl st k) as [st1|e] eqn:Hstep; cbn; [|discriminate].
    intros Hrest w. rewrite (IH _ Hrest w).
    destruct (recognize_word_cases _ _ _ _ _ Hstep) as [(logL & Hk & Hp & _)|[Hk ->]].
    + destruct (word_score hmm_score models Xl w) as [lw|] eqn:Hw.
      * destruct (decide (w ∈ keys)) as [Hin|Hnin].
        { rewrite decide_True; [reflexivity|right; exact Hin]. }
        rewrite Hp. destruct (decide (w = k)) as [->|Hne].
        { rewrite decide_True by left. rewrite lookup_insert_eq. congruence. }
        rewrite lookup_insert_ne by congruence.
        rewrite decide_False; [reflexivity|].
        rewrite not_elem_of_cons. tauto.
      * rewrite Hp. rewrite lookup_insert_ne; [reflexivity|]. congruence.
    + destruct (word_score hmm_score models Xl w) as [lw|] eqn:Hw; [|reflexivity].
      destruct (decide (w ∈ keys)) as [Hin|Hnin].
      * rewrite decide_True; [reflexivity|right; exact Hin].
      * rewrite decide_False; [reflexivity|].
        rewrite not_elem_of_cons. split; [congruence|exact Hnin].
Qed.

(** The best score and the best word after the loop: as before, with no
    key scoring above the best score; or those of a key that scored above
    it, above every earlier running best, and that no key scores above. *)
Lemma recognize_words_best models Xl keys st st' :
  steps models Xl keys st = Ok st' ->
  (best_word st' = best_word st /\ best_score st' = best_score st /\
   forall w l, w ∈ keys -> word_score hmm_score models Xl w = Some l ->
     Float.gtb l (best_score st) = false) \/
  (exists k1 w k2 l,
     keys = k1 ++ w :: k2 /\ best_word st' = Some w /\ best_score st' = l /\
     word_score hmm_score models Xl w = Some l /\ Float.gtb l (best_score st) = true /\
     (forall w' l', w' ∈ k1 -> word_score hmm_score models Xl w' = Some l' ->
        Float.gtb l' l = false /\
        exists b, Float.gtb l' b = false /\ Float.gtb l b = true) /\
     (forall w' l', w' ∈ k2 -> word_score hmm_score models Xl w' = Some l' ->
        Float.gtb l' l = false)).
Proof.
  pose proof FloatFacts.gtb_strict as Hstrict.
  revert st. induction keys as [|k keys IH]; intros st; cbn [recognize_words].
  - intros [= <-]. left. split_and!; [reflexivity..|].
    intros w l Hin. inversion Hin.
  - destruct (step models Xl st k) as [st1|e] eqn:Hstep; cbn; [|discriminate].
    intros Hrest. specialize (IH _ Hrest).
    destruct (recognize_word_cases _ _ _ _ _ Hstep)
      as [(logL & Hk & _ & [(Hgt & Hs1 & Hw1)|(Hgt & Hs1 & Hw1)])|[Hk ->]].
    + (* [k] is the new best *)
      right.
      destruct IH as [(Hw & Hs & Hno)|(k1 & w & k2 & l & -> & Hw & Hs & Hl & Hbeat & H1 & H2)].
      * exists [], k, keys, logL. rewrite Hw, Hs, Hw1, Hs1.
        split_and!; try reflexivity; try assumption.
        -- intros w' l' Hin. inversion Hin.
        -- intros w' l' Hin Hl'. rewrite <- Hs1. eauto.
      * rewrite Hs1 in Hbeat. exists (k :: k1), w, k2, l.
        split_and!; try reflexivity; try assumption.
        -- exact (better_trans _ _ _ Hbeat Hgt).
        -- intros w' l' Hin Hl'.
           apply elem_of_cons in Hin as [->|Hin]; [|eapply H1; eauto].
           rewrite Hk in Hl'. injection Hl' as <-. split.
           ++ destruct (Float.gtb logL l) eqn:E; [|exact E].
              pose proof (better_trans _ _ _ E Hbeat) as Hc.
              rewrite better_irrefl in Hc. discriminate.
           ++ exists logL. split; [apply better_irrefl|exact Hbeat].
    + (* [k] scores, but not above the best *)
      rewrite Hs1, Hw1 in IH.
      destruct IH as [(Hw & Hs & Hno)|(k1 & w & k2 & l & -> & Hw & Hs & Hl & Hbeat & H1 & H2)].
      * left. split_and!; try assumption. intros w' l' Hin Hl'.
        apply elem_of_cons in Hin as [->|Hin]; [|eauto].
        rewrite Hk in Hl'. injection Hl' as <-. exact Hgt.
      * right. exists (k :: k1), w, k2, l.
        split_and!; try reflexivity; try assumption.
        intros w' l' Hin Hl'.
        apply elem_of_cons in Hin as [->|Hin]; [|eapply H1; eauto].
        rewrite Hk in Hl'. injection Hl' as <-. split.
        -- destruct (Float.gtb logL l) eqn:E; [|exact E].
           pose proof (better_trans _ _ _ E Hbeat) as Hc. congruence.
        -- exists (best_score st). split; assumption.
    + (* [k] is skipped *)
      destruct IH as [(Hw & Hs & Hno)|(k1 & w & k2 & l & -> & Hw & Hs & Hl & Hbeat & H1 & H2)].
      * left. split_and!; try assumption. intros w' l' Hin Hl'.
        apply elem_of_cons in Hin as [->|Hin]; [congruence|eauto].
      * right. exists (k :: k1), w, k2, l.
        split_and!; try reflexivity; try assumption.
        intros w' l' Hin Hl'.
        apply elem_of_cons in Hin as [->|Hin]; [congruence|eapply H1; eauto].
Qed.

Lemma word_score_key models Xl w l :
  word_score hmm_score models Xl w = Some l -> w ∈ dict_keys models.
Proof.
  unfold word_score. intros H.
  destruct (decide (w ∈ dict_keys models)) as [Hin|Hnin]; [exact Hin|].
  apply dict_get_None in Hnin. rewrite Hnin in H. discriminate.
Qed.

Lemma recognize_item_inv models Xl p g :
  recognize_item hmm_score models Xl = Ok (p, g) ->
  exists st,
    steps models Xl (dict_keys models) (mkItem ∅ (-1000000000)%float None) = Ok st /\
    p = p_hash st /\ g = best_word st.
Proof.
  unfold recognize_item. destruct (steps _ _ _ _) as [st|e]; cbn; [|discriminate].
  intros [= <- <-]. eauto.
Qed.

(** A pass whose model raises a [ValueError] changes nothing. *)
Lemma recognize_words_all_fail models Xl keys st :
  (forall k, k ∈ keys ->
     exists model, dict_get models k = Some model /\
                   hmm_score model Xl.1 Xl.2 = Raise ValueError) ->
  steps models Xl keys st = Ok st.
Proof.
  induction keys as [|k keys IH]; intros Hall; cbn [recognize_words]; [reflexivity|].
  destruct (Hall k ltac:(left)) as (m & Hget & Hs).
  unfold recognize_word at 1, recognize_try. rewrite Hget. cbn. rewrite Hs. cbn.
  apply IH. intros k' Hin. apply Hall. right. exact Hin.
Qed.

(** The loop returns when no model raises a foreign exception. *)
Lemma recognize_words_total models Xl keys st :
  (forall k, k ∈ keys ->
     exists model, dict_get models k = Some model /\
                   hmm_score model Xl.1 Xl.2 <> Raise OtherException) ->
  exists st', steps models Xl keys st = Ok st'.
Proof.
  revert st. induction keys as [|k keys IH]; intros st Hall; cbn [recognize_words]; [eauto|].
  destruct (Hall k ltac:(left)) as (m & Hget & Hs).
  assert (Hstep : exists st1, step models Xl st k = Ok st1).
  { unfold recognize_word, recognize_try. rewrite Hget. cbn.
    destruct (hmm_score m Xl.1 Xl.2) as [l|[]]; [|cbn; eauto|congruence].
    cbn. unfold Float.gtb. destruct (PrimFloat.ltb (best_score st) l); eauto. }
  destruct Hstep as (st1 & ->). cbn.
  apply IH. intros k' Hin. apply Hall. right. exact Hin.
Qed.

(** C8. In [recognize] the guess for an item changes only on a strict [>]
    from the sentinel [-1e9]: it is absent with no score above the
    sentinel, or it is a word whose score is above the sentinel and that no
    word scores above. When two words score the same, the one that comes
    later in the iteration order of the models is not the guess. *)
Theorem recognize_item_guess models Xl p g :
  recognize_item hmm_score models Xl = Ok (p, g) ->
  ((g = None /\
    forall w l, word_score hmm_score models Xl w = Some l -> Float.gtb l (-1000000000) = false) \/
   (exists w l, g = Some w /\ word_score hmm_score models Xl w = Some l /\
      Float.gtb l (-1000000000) = true /\
      forall w' l', word_score hmm_score models Xl w' = Some l' -> Float.gtb l' l = false)) /\
  (dict_wf models ->
   forall pre w1 mid w2 post l1 l2,
     dict_keys models = pre ++ w1 :: mid ++ w2 :: post ->
     word_score hmm_score models Xl w1 = Some l1 -> word_score hmm_score models Xl w2 = Some l2 ->
     l1 = l2 \/ Float.eqb l1 l2 = true ->
     g <> Some w2).
Proof.
  intros Hrun. apply recognize_item_inv in Hrun as (st & Hrun & -> & ->).
  destruct (recognize_words_best _ _ _ _ _ Hrun)
    as [(Hw & Hs & Hno)|(k1 & w & k2 & l & Hkeys & Hw & Hs & Hl & Hbeat & H1 & H2)];
    cbn in *.
  - split.
    + left. split; [exact Hw|]. intros w l Hl. eapply Hno; eauto using word_score_key.
    + intros _ pre w1 mid w2 post l1 l2 _ _ _ _. rewrite Hw. discriminate.
  - split.
    + right. exists w, l. split_and!; try assumption.
      intros w' l' Hl'. pose proof (word_score_key _ _ _ _ Hl') as Hin.
      rewrite Hkeys in Hin. apply elem_of_app in Hin as [Hin|Hin].
      * eapply H1; eauto.
      * apply elem_of_cons in Hin as [->|Hin]; [|eauto].
        rewrite Hl in Hl'. injection Hl' as ->. apply FloatFacts.ltb_irrefl.
    + intros Hwf pre w1 mid w2 post l1 l2 Hsplit Hl1 Hl2 Hsame. rewrite Hw.
      intros [= ->]. unfold dict_wf in Hwf. rewrite Hkeys in Hwf.
      rewrite Hkeys in Hsplit.
      replace (pre ++ w1 :: mid ++ w2 :: post) with ((pre ++ w1 :: mid) ++ w2 :: post)
        in Hsplit by (rewrite <- app_assoc; reflexivity).
      pose proof (NoDup_split_unique _ _ _ _ _ Hwf Hsplit) as ->.
      destruct (H1 w1 l1) as (_ & b & Hb1 & Hb2); [|exact Hl1|].
      { apply elem_of_app. right. left. }
      rewrite Hl in Hl2. injection Hl2 as ->.
      pose proof (same_float_gtb _ _ Hsame b) as Hsb.
      unfold Float.gtb in *. congruence.
Qed.

(** The probabilities of an item: for every word, the score of its model. *)
Lemma recognize_item_entries models Xl p g :
  recognize_item hmm_score models Xl = Ok (p, g) ->
  forall w, p !! w = word_score hmm_score models Xl w.
Proof.
  intros Hrun w. apply recognize_item_inv in Hrun as (st & Hrun & -> & _).
  rewrite (recognize_words_p_hash _ _ _ _ _ Hrun w). cbn.
  destruct (word_score hmm_score models Xl w) as [l|] eqn:Hw; [|apply lookup_empty].
  rewrite decide_True; [reflexivity|]. eapply word_score_key; eauto.
Qed.

(** C9. In [recognize] the probabilities of an item hold, for every word,
    the score of the word's model on the item, and nothing for a word whose
    model raises a [ValueError]: the entry of a word depends on the model of
    that word only, so the failure of one model leaves the entries of the
    other words as they are. An item that every model fails to score has
    the empty mapping and no guess; and the item is always answered when no
    model raises a foreign exception. *)
Theorem recognize_item_probabilities models Xl :
  (forall p g, recognize_item hmm_score models Xl = Ok (p, g) ->
     (forall w, p !! w = word_score hmm_score models Xl w) /\
     (forall w model, dict_get models w = Some model ->
        hmm_score model Xl.1 Xl.2 = Raise ValueError -> p !! w = None) /\
     (forall models' p' g' w',
        recognize_item hmm_score models' Xl = Ok (p', g') ->
        dict_get models' w' = dict_get models w' -> p' !! w' = p !! w')) /\
  ((forall w model, (w, model) ∈ models -> hmm_score model Xl.1 Xl.2 = Raise ValueError) ->
   recognize_item hmm_score models Xl = Ok (∅, None)) /\
  ((forall w model, (w, model) ∈ models ->
      hmm_score model Xl.1 Xl.2 <> Raise OtherException) ->
   exists p g, recognize_item hmm_score models Xl = Ok (p, g)).
Proof.
  pose proof (fun ms => recognize_item_entries ms Xl) as Hentries.
  split; [|split].
  - intros p g Hrun. split; [|split].
    + eauto.
    + intros w m Hget Hs. rewrite (Hentries _ _ _ Hrun).
      unfold word_score. rewrite Hget, Hs. reflexivity.
    + intros ms p' g' w' Hrun' Hget.
      rewrite (Hentries _ _ _ Hrun), (Hentries _ _ _ Hrun').
      unfold word_score. rewrite Hget. reflexivity.
  - intros Hall. unfold recognize_item.
    rewrite recognize_words_all_fail; [reflexivity|].
    intros k Hin. destruct (dict_get_key _ _ Hin) as (m & Hget & Hm). eauto.
  - intros Hall. unfold recognize_item.
    destruct (recognize_words_total models Xl (dict_keys models)
                (mkItem ∅ (-1000000000)%float None)) as (st & ->); [|cbn; eauto].
    intros k Hin. destruct (dict_get_key _ _ Hin) as (m & Hget & Hm). eauto.
Qed.

(** [recognize] answers the items one by one, in the order of the test set:
    the two lists it returns hold, for every item, what [recognize_item]
    returns for it. *)
Lemma recognize_items_spec models test_set items ps gs ps' gs' :
  recognize_items hmm_score models test_set items ps gs = Ok (ps', gs') ->
  exists rs,
    Forall2 (fun i r => recognize_item hmm_score models (get_item_Xlengths test_set i) = Ok r)
      items rs /\
    ps' = ps ++ rs.*1 /\ gs' = gs ++ rs.*2.
Proof.
  revert ps gs. induction items as [|i items IH]; intros ps gs; cbn [recognize_items].
  - intros [= <- <-]. exists []. rewrite !app_nil_r. auto.
  - destruct (recognize_item hmm_score models (get_item_Xlengths test_set i))
      as [[p g]|e] eqn:Hitem; cbn; [|discriminate].
    intros Hrest. destruct (IH _ _ Hrest) as (rs & HF & -> & ->).
    exists ((p, g) :: rs). rewrite <- !app_assoc. auto.
Qed.

Lemma recognize_spec models test_set probabilities guesses :
  recognize hmm_score models test_set = Ok (probabilities, guesses) ->
  length probabilities = num_items test_set /\
  length guesses = num_items test_set /\
  forall i p g, probabilities !! i = Some p -> guesses !! i = Some g ->
    recognize_item hmm_score models (get_item_Xlengths test_set i) = Ok (p, g).
Proof.
  unfold recognize. intros Hrun.
  apply recognize_items_spec in Hrun as (rs & HF & -> & ->). cbn [app].
  pose proof (Forall2_length _ _ _ HF) as Hlen. rewrite length_seq in Hlen.
  rewrite !length_fmap. split_and!; try congruence.
  intros i p g Hp Hg. rewrite list_lookup_fmap in Hp. rewrite list_lookup_fmap in Hg.
  destruct (rs !! i) as [[p0 g0]|] eqn:Hrs; [|discriminate].
  cbn in Hp, Hg. injection Hp as <-. injection Hg as <-.
  destruct (Forall2_lookup_r _ _ _ _ _ HF Hrs) as (j & Hj & Hitem).
  apply lookup_seq in Hj as [-> _]. exact Hitem.
Qed.

End RecognizerFacts.

(** ** The folds of scikit-learn's [KFold] *)

Lemma kfold_from_length n_samples start sizes :
  length (kfold_from n_samples start sizes) = length sizes.
Proof.
  revert start. induction sizes as [|size sizes IH]; intros start; simpl; [reflexivity|].
  rewrite IH. reflexivity.
Qed.

(** When [KFold] accepts the count that [SelectorCV.select] asks for, it
    yields that many folds: three, or two for a word with two sequences. *)
Lemma sklearn_KFold_split_length self folds :
  sklearn_KFold_split (cv_split_count self) (sequences self) = Ok folds ->
  len folds = cv_split_count self /\ 2 <= len folds <= len (sequences self).
Proof.
  unfold sklearn_KFold_split.
  destruct (Z.leb_spec (cv_split_count self) 1) as [|Hk]; [discriminate|].
  destruct (Z.ltb_spec (len (sequences self)) (cv_split_count self)) as [|Hn];
    [discriminate|].
  intros [= <-]. unfold len at 1 2 3.
  rewrite kfold_from_length. unfold kfold_sizes. rewrite length_map, length_seq.
  rewrite Z2Nat.id by lia. lia.
Qed.

(** ** The selectors and the recognizer on concrete inputs *)

#[local] Open Scope string_scope.

(** A tie between two state counts on the Bayesian criterion (one row of
    data, so that [ln N = 0]): the smaller state count is fitted. *)
Example SelectorBIC_tie :
  SelectorBIC_select Toy.fits_all (Toy.scores (-10)) Toy.np_log
    (Toy.selector "A" [Toy.one_frame] [] 3 2 3)
  = Ok (Some (mkGaussianHMM 2 14 tt)).
Proof. vm_compute. reflexivity. Qed.

(** Two state counts with the same discriminative score (each scores the
    other word as it scores its own): the smaller state count is fitted. *)
Example SelectorDIC_run :
  SelectorDIC_select Toy.fits_all (Toy.scores_by_states (-20) (-10)) Toy.np_mean
    (Toy.selector "A" Toy.three_long [Toy.word_B] 3 2 3)
  = Ok (Some (mkGaussianHMM 2 14 tt)).
Proof. vm_compute. reflexivity. Qed.

(** With a single training sequence, [SelectorCV.select] asks [KFold] for
    one split, and scikit-learn's [KFold] raises. *)
Example SelectorCV_single_sequence :
  SelectorCV_select Toy.fits_all (Toy.scores (-10)) Toy.np_mean
    sklearn_KFold_split asl_combine_sequences
    (Toy.selector "A" [Toy.two_frames] [] 3 2 3)
  = Raise ValueError.
Proof. vm_compute. reflexivity. Qed.

(** C1 fails on the code. [SelectorConstant.select] returns absence when
    its one fit, at [n_constant = 3], fails, although the other state
    counts of the range [2 .. 10] fit; and [SelectorBIC.select] returns
    absence over the range [2 .. 3] when the fit at 2 fails and the
    candidate at 3 fits and scores, its criterion being above the sentinel. *)
Lemma select_absent_though_a_candidate_fits :
  (SelectorConstant_select Toy.fits_all_but_3 (Toy.selector "A" Toy.three_long [] 3 2 10)
   = Ok None /\
   GaussianHMM_fit Toy.fits_all_but_3 2 14
     (X (Toy.selector "A" Toy.three_long [] 3 2 10))
     (lengths (Toy.selector "A" Toy.three_long [] 3 2 10))
   = Ok (mkGaussianHMM 2 14 tt)) /\
  (SelectorBIC_select Toy.fits_only_3 (Toy.scores (-1000000000)) Toy.np_log
     (Toy.selector "A" Toy.three_long [] 3 2 3)
   = Ok None /\
   exists v,
     bic_crit Toy.fits_only_3 (Toy.scores (-1000000000)) Toy.np_log
       (Toy.selector "A" Toy.three_long [] 3 2 3) 3
     = Ok (Some v) /\
     Float.ltb v 100000000 = false).
Proof.
  split; [vm_compute; split; reflexivity|].
  split; [vm_compute; reflexivity|].
  eexists. split; vm_compute; reflexivity.
Qed.

(** C4 fails on the code. With [10^200] states the candidate fits and
    scores, but [p = n * n + 2 * n * T - 1] is beyond the range of a float:
    line 87 raises (an [OverflowError]) and [SelectorBIC.select] with it,
    where the claim has a score computed and a model returned. *)
Lemma SelectorBIC_overflow :
  GaussianHMM_fit Toy.fits_all (10 ^ 200) 14
    (X (Toy.selector "A" Toy.three_long [] 3 (10 ^ 200) (10 ^ 200)))
    (lengths (Toy.selector "A" Toy.three_long [] 3 (10 ^ 200) (10 ^ 200)))
  = Ok (mkGaussianHMM (10 ^ 200) 14 tt) /\
  Toy.scores (-10) (mkGaussianHMM (10 ^ 200) 14 tt)
    (X (Toy.selector "A" Toy.three_long [] 3 (10 ^ 200) (10 ^ 200)))
    (lengths (Toy.selector "A" Toy.three_long [] 3 (10 ^ 200) (10 ^ 200)))
  = Ok (-10)%float /\
  SelectorBIC_select Toy.fits_all (Toy.scores (-10)) Toy.np_log
    (Toy.selector "A" Toy.three_long [] 3 (10 ^ 200) (10 ^ 200))
  = Raise OtherException.
Proof. vm_compute. repeat split. Qed.

(** C2 fails on the code. [SelectorConstant.select] with [n_constant = 15]
    and the range [2 .. 10] returns a model with 15 states; and
    [SelectorBIC.select] with the empty range [5 .. 3] returns a model with
    5 states. *)
Lemma select_outside_range :
  (SelectorConstant_select Toy.fits_all (Toy.selector "A" Toy.three_long [] 15 2 10)
   = Ok (Some (mkGaussianHMM 15 14 tt)) /\
   ~ (min_n_components (Toy.selector "A" Toy.three_long [] 15 2 10)
      <= n_components (mkGaussianHMM 15 14 tt)
      <= max_n_components (Toy.selector "A" Toy.three_long [] 15 2 10))) /\
  (SelectorBIC_select Toy.fits_all (Toy.scores (-10)) Toy.np_log
     (Toy.selector "A" Toy.three_long [] 3 5 3)
   = Ok (Some (mkGaussianHMM 5 14 tt)) /\
   ~ (5 <= n_components (mkGaussianHMM 5 14 tt) <= 3)).
Proof.
  split; (split; [vm_compute; reflexivity|]); simpl; lia.
Qed.

(** C6 fails on the code. On the data of the word the trainer fits at 3
    states only, over the range [2 .. 3]. [SelectorBIC.select] returns
    absence when the score of the candidate raises; [SelectorDIC.select]
    when the score of the other word raises; [SelectorCV.select] when the
    training folds, of two rows, are too short for a fit at 3 states, and
    also when 2 states fit the training folds, of four rows, with a better
    mean than 3 states: the search keeps 2, which does not fit the six rows
    of the word. *)
Lemma single_fit_not_selected :
  (GaussianHMM_fit Toy.fits_only_3 2 14
     (X (Toy.selector "A" Toy.three_long [] 3 2 3))
     (lengths (Toy.selector "A" Toy.three_long [] 3 2 3)) = Raise ValueError /\
   GaussianHMM_fit Toy.fits_only_3 3 14
     (X (Toy.selector "A" Toy.three_long [] 3 2 3))
     (lengths (Toy.selector "A" Toy.three_long [] 3 2 3))
   = Ok (mkGaussianHMM 3 14 tt) /\
   SelectorBIC_select Toy.fits_only_3 Toy.score_fails Toy.np_log
     (Toy.selector "A" Toy.three_long [] 3 2 3)
   = Ok None /\
   SelectorDIC_select Toy.fits_only_3 (Toy.score_fails_on_one_row (-10)) Toy.np_mean
     (Toy.selector "A" Toy.three_long [Toy.word_B] 3 2 3)
   = Ok None) /\
  (GaussianHMM_fit Toy.fits_only_3 2 14
     (X (Toy.selector "A" Toy.three_short [] 3 2 3))
     (lengths (Toy.selector "A" Toy.three_short [] 3 2 3)) = Raise ValueError /\
   GaussianHMM_fit Toy.fits_only_3 3 14
     (X (Toy.selector "A" Toy.three_short [] 3 2 3))
     (lengths (Toy.selector "A" Toy.three_short [] 3 2 3))
   = Ok (mkGaussianHMM 3 14 tt) /\
   SelectorCV_select Toy.fits_only_3 (Toy.scores (-10)) Toy.np_mean
     sklearn_KFold_split asl_combine_sequences
     (Toy.selector "A" Toy.three_short [] 3 2 3)
   = Ok None) /\
  (GaussianHMM_fit Toy.fits_3_and_short_2 2 14
     (X (Toy.selector "A" Toy.three_long [] 3 2 3))
     (lengths (Toy.selector "A" Toy.three_long [] 3 2 3)) = Raise ValueError /\
   GaussianHMM_fit Toy.fits_3_and_short_2 3 14
     (X (Toy.selector "A" Toy.three_long [] 3 2 3))
     (lengths (Toy.selector "A" Toy.three_long [] 3 2 3))
   = Ok (mkGaussianHMM 3 14 tt) /\
   cv_crit Toy.fits_3_and_short_2 (Toy.scores_by_states (-5) (-10)) Toy.np_mean
     sklearn_KFold_split asl_combine_sequences
     (Toy.selector "A" Toy.three_long [] 3 2 3) 3
   = Ok (Some (-10)%float) /\
   SelectorCV_select Toy.fits_3_and_short_2 (Toy.scores_by_states (-5) (-10)) Toy.np_mean
     sklearn_KFold_split asl_combine_sequences
     (Toy.selector "A" Toy.three_long [] 3 2 3)
   = Ok None).
Proof. vm_compute. repeat split. Qed.

(** A use of [select_single_fit]: the trainer fits at 3 states only, and
    each of the three searches returns the model with 3 states. *)
Lemma select_single_fit_witness :
  (min_n_components Toy.selector_A <= 3 <= max_n_components Toy.selector_A) /\
  GaussianHMM_fit Toy.fits_only_3 3 (random_state Toy.selector_A)
    (X Toy.selector_A) (lengths Toy.selector_A)
  = Ok (mkGaussianHMM 3 14 tt) /\
  (forall n, min_n_components Toy.selector_A <= n <= max_n_components Toy.selector_A ->
     n <> 3 ->
     GaussianHMM_fit Toy.fits_only_3 n (random_state Toy.selector_A)
       (X Toy.selector_A) (lengths Toy.selector_A) = Raise ValueError) /\
  SelectorBIC_select Toy.fits_only_3 (Toy.scores (-10)) Toy.np_log Toy.selector_A
  = Ok (Some (mkGaussianHMM 3 14 tt)) /\
  SelectorDIC_select Toy.fits_only_3 (Toy.scores (-10)) Toy.np_mean Toy.selector_A
  = Ok (Some (mkGaussianHMM 3 14 tt)) /\
  SelectorCV_select Toy.fits_only_3 (Toy.scores (-10)) Toy.np_mean
    sklearn_KFold_split asl_combine_sequences Toy.selector_A
  = Ok (Some (mkGaussianHMM 3 14 tt)) /\
  n_components (mkGaussianHMM 3 14 tt) = 3.
Proof.
  assert (Hrange : min_n_components Toy.selector_A <= 3 <= max_n_components Toy.selector_A)
    by (vm_compute; split; discriminate).
  assert (Hfit : GaussianHMM_fit Toy.fits_only_3 3 (random_state Toy.selector_A)
                   (X Toy.selector_A) (lengths Toy.selector_A)
                 = Ok (mkGaussianHMM 3 14 tt)) by reflexivity.
  assert (Hany : forall n x l,
            min_n_components Toy.selector_A <= n <= max_n_components Toy.selector_A ->
            n <> 3 ->
            GaussianHMM_fit Toy.fits_only_3 n (random_state Toy.selector_A) x l
            = Raise ValueError).
  { intros n x l Hn Hne. assert (n = 2) as -> by (simpl in Hn; lia). reflexivity. }
  assert (Hothers : forall n,
            min_n_components Toy.selector_A <= n <= max_n_components Toy.selector_A ->
            n <> 3 ->
            GaussianHMM_fit Toy.fits_only_3 n (random_state Toy.selector_A)
              (X Toy.selector_A) (lengths Toy.selector_A) = Raise ValueError)
    by (intros n; apply Hany).
  destruct (select_single_fit Toy.fits_only_3 (Toy.scores (-10)) Toy.np_log Toy.np_mean
              sklearn_KFold_split asl_combine_sequences Toy.selector_A 3
              (mkGaussianHMM 3 14 tt) Hrange Hfit Hothers)
    as (Hbic & Hdic & Hcv & Hn).
  split; [exact Hrange|]. split; [exact Hfit|]. split; [exact Hothers|].
  split; [|split; [|split]].
  - eapply Hbic; vm_compute; reflexivity.
  - eapply Hdic; vm_compute; reflexivity.
  - eapply Hcv.
    + vm_compute. reflexivity.
    + intros n train test Hin Hne _ _. apply Hany; assumption.
    + vm_compute. reflexivity.
    + vm_compute. reflexivity.
  - exact Hn.
Defined.

(** A use of [recognize_item_guess]: two models with the same score on the
    item; the guess is the first word of the models, not the second. *)
Lemma recognize_item_guess_witness :
  exists p g,
    recognize_item (Toy.scores (-5)) Toy.models_AB Toy.item = Ok (p, g) /\
    dict_wf Toy.models_AB /\
    g = Some "A" /\ g <> Some "B".
Proof.
  destruct (recognize_item (Toy.scores (-5)) Toy.models_AB Toy.item) as [[p g]|e] eqn:Hrun;
    [|vm_compute in Hrun; discriminate].
  exists p, g.
  assert (Hwf : dict_wf Toy.models_AB).
  { unfold dict_wf. apply (bool_decide_unpack _). vm_compute. reflexivity. }
  split; [reflexivity|]. split; [exact Hwf|]. split.
  - vm_compute in Hrun. congruence.
  - apply (proj2 (recognize_item_guess (Toy.scores (-5)) Toy.models_AB Toy.item p g Hrun)
             Hwf [] "A" [] "B" [] (-5)%float (-5)%float);
      [reflexivity..|left; reflexivity].
Defined.

(** C10. In [recognize] an absent guess does not tell that no model scored
    the item: there are models that all score an item, none of them above
    the sentinel [-1e9], for which the probabilities of the item are not
    empty and its guess is absent. *)
Theorem recognize_guess_absent_with_scores :
  exists (hmm_score : GaussianHMM unit -> matrix -> list Z -> result float)
         (models : dict (GaussianHMM unit)) (Xl : matrix * list Z)
         (p : gmap string float),
    models <> [] /\
    (forall w model, (w, model) ∈ models ->
       exists logL, hmm_score model Xl.1 Xl.2 = Ok logL /\
                    PrimFloat.leb logL (-1000000000) = true) /\
    recognize_item hmm_score models Xl = Ok (p, None) /\
    p <> ∅ /\
    p !! "A" = Some (-1000000000)%float /\ p !! "B" = Some (-2000000000)%float.
Proof.
  exists (Toy.scores_by_states (-1000000000) (-2000000000)), Toy.models_AB, Toy.item.
  destruct (recognize_item (Toy.scores_by_states (-1000000000) (-2000000000))
              Toy.models_AB Toy.item) as [[p g]|e] eqn:Hrun;
    [|vm_compute in Hrun; discriminate].
  assert (Hg : g = None) by (vm_compute in Hrun; congruence).
  assert (HA : p !! "A" = Some (-1000000000)%float).
  { rewrite (recognize_item_entries _ _ _ _ _ Hrun). reflexivity. }
  assert (HB : p !! "B" = Some (-2000000000)%float).
  { rewrite (recognize_item_entries _ _ _ _ _ Hrun). reflexivity. }
  exists p. subst g. split_and!; try assumption; try reflexivity.
  - discriminate.
  - intros w model Hin. unfold Toy.models_AB in Hin.
    apply elem_of_cons in Hin as [[= -> ->]|Hin];
      [|apply elem_of_cons in Hin as [[= -> ->]|Hin]; [|inversion Hin]];
      eexists; split; reflexivity.
  - intros ->. rewrite lookup_empty in HA. discriminate.
Qed.

(** * Further properties *)

#[local] Close Scope string_scope.

(** ** The constructor *)


(** ** Exceptions of the searches *)

(** A search raises exactly when one of its rounds does. *)
Lemma search_loop_raises better `{!StrictB better} crit self sentinel :
  (exists e,
     while_loop (search_fuel self) (search_cond self) (search_body better crit)
       (mkSearch (min_n_components self) sentinel (min_n_components self)) = Raise e) <->
  (exists n e, min_n_components self <= n <= max_n_components self /\ crit n = Raise e).
Proof.
  split.
  - intros (e & Hrun). apply search_loop_raise in Hrun as (n & Hn & Hc). eauto.
  - intros (n & e & Hn & Hc).
    destruct (while_loop _ _ _ _) as [st|e'] eqn:Hrun; [|eauto].
    apply search_loop_spec in Hrun; [|assumption].
    destruct Hrun as (Hall & _). destruct (Hall n Hn) as (r & Hr & _). congruence.
Qed.

Section SelectorMore.

Context {params : Type}.
Variable hmm_fit : Z -> Z -> matrix -> list Z -> result params.
Variable hmm_score : GaussianHMM params -> matrix -> list Z -> result float.
Variable np_log : Z -> float.
Variable np_mean : list float -> float.
Variable KFold_split : Z -> list sequence -> result (list (list nat * list nat)).
Variable combine_sequences : list nat -> list sequence -> matrix * list Z.

#[local] Abbreviation fit := (GaussianHMM_fit hmm_fit).
#[local] Abbreviation base := (base_model hmm_fit).
#[local] Abbreviation bic := (bic_crit hmm_fit hmm_score np_log).
#[local] Abbreviation dic := (dic_crit hmm_fit hmm_score np_mean).
#[local] Abbreviation cv := (cv_crit hmm_fit hmm_score np_mean KFold_split combine_sequences).
#[local] Abbreviation BIC_select := (SelectorBIC_select hmm_fit hmm_score np_log).
#[local] Abbreviation DIC_select := (SelectorDIC_select hmm_fit hmm_score np_mean).
#[local] Abbreviation CV_select :=
  (SelectorCV_select hmm_fit hmm_score np_mean KFold_split combine_sequences).

(** A search and its [base_model] raise what the search raises. *)
Lemma search_select_raises better `{!StrictB better} crit self sentinel body e :
  (forall st, body st = search_body better crit st) ->
  (while_loop (search_fuel self) (search_cond self) body
     (mkSearch (min_n_components self) sentinel (min_n_components self))
   ≫= (fun st => base self (best_comp_count st))) = Raise e <->
  while_loop (search_fuel self) (search_cond self) (search_body better crit)
    (mkSearch (min_n_components self) sentinel (min_n_components self)) = Raise e.
Proof.
  intros Hbody. rewrite (while_loop_ext _ _ _ Hbody).
  destruct (while_loop _ _ _ _) as [st|e']; simpl;
    [|split; intros [= ->]; reflexivity].
  split; [|discriminate]. intros H. elim (base_model_no_raise _ _ _ _ H).
Qed.

(** The foreign exceptions of a round of the Bayesian search: of the fit,
    of the score, or of the conversion of [p_val] to a float. *)
Lemma bic_crit_raises self n e :
  bic self n = Raise e <->
  e = OtherException /\
  (fit n (random_state self) (X self) (lengths self) = Raise OtherException \/
   exists candidate,
     fit n (random_state self) (X self) (lengths self) = Ok candidate /\
     (hmm_score candidate (X self) (lengths self) = Raise OtherException \/
      exists logL,
        hmm_score candidate (X self) (lengths self) = Ok logL /\
        PrimFloat.is_infinity (Float.of_Z (bic_p_val self n)) = true)).
Proof.
  unfold bic_crit, bic_value, Float.of_int. cbv zeta.
  destruct (PrimFloat.is_infinity (Float.of_Z (bic_p_val self n))) eqn:Hinf;
    destruct (fit n _ _ _) as [c|[]] eqn:Hfit; simpl;
    try (match goal with
         | |- context [hmm_score ?c ?x ?l ≫= _] =>
             destruct (hmm_score c x l) as [logL|[]] eqn:Hs
         end); simpl;
    (split;
     [ intros H; try discriminate H; injection H as <-; eauto 10
     | intros (-> & H); try reflexivity; exfalso;
       destruct H as [?|(c' & Hc & [?|(l' & Hl & ?)])]; congruence ]).
Qed.

Lemma dic_crit_raises self n e :
  dic self n = Raise e <->
  e = OtherException /\
  (fit n (random_state self) (X self) (lengths self) = Raise OtherException \/
   exists candidate,
     fit n (random_state self) (X self) (lengths self) = Ok candidate /\
     (hmm_score candidate (X self) (lengths self) = Raise OtherException \/
      exists logL,
        hmm_score candidate (X self) (lengths self) = Ok logL /\
        dic_other_scores hmm_score self candidate (hwords self) []
        = Raise OtherException)).
Proof.
  unfold dic_crit.
  destruct (fit n _ _ _) as [c|[]] eqn:Hfit; cbn.
  - destruct (hmm_score c _ _) as [l|[]] eqn:Hs; cbn.
    + destruct (dic_other_scores _ _ _ _ _) as [o|[]] eqn:Ho; cbn.
      * split; [discriminate|].
        intros (_ & [?|(c' & [= <-] & [?|(l' & _ & ?)])]); congruence.
      * split; [discriminate|].
        intros (_ & [?|(c' & [= <-] & [?|(l' & _ & ?)])]); congruence.
      * split; [intros [= <-]; eauto 10|]. intros (-> & _). reflexivity.
    + split; [discriminate|].
      intros (_ & [?|(c' & [= <-] & [?|(l' & ? & _)])]); congruence.
    + split; [intros [= <-]; eauto 10|]. intros (-> & _). reflexivity.
  - split; [discriminate|]. intros (_ & [?|(c' & ? & _)]); congruence.
  - split; [intros [= <-]; eauto|]. intros (-> & _). reflexivity.
Qed.

(** X2. [SelectorBIC.select] and [SelectorDIC.select] raise exactly when,
    for a state count of the range, the fit or a score raises an exception
    that is not a [ValueError], or, for [SelectorBIC.select], when the fit
    and the score return and [p_val] is beyond the range of a float (the
    [OverflowError] of line 87); what they raise is never a [ValueError]. *)
Theorem select_raises_foreign self :
  let lo := min_n_components self in
  let hi := max_n_components self in
  ((exists e, BIC_select self = Raise e) <->
   exists n, lo <= n <= hi /\
     (fit n (random_state self) (X self) (lengths self) = Raise OtherException \/
      exists candidate,
        fit n (random_state self) (X self) (lengths self) = Ok candidate /\
        (hmm_score candidate (X self) (lengths self) = Raise OtherException \/
         exists logL,
           hmm_score candidate (X self) (lengths self) = Ok logL /\
           PrimFloat.is_infinity (Float.of_Z (bic_p_val self n)) = true))) /\
  ((exists e, DIC_select self = Raise e) <->
   exists n, lo <= n <= hi /\
     (fit n (random_state self) (X self) (lengths self) = Raise OtherException \/
      exists candidate,
        fit n (random_state self) (X self) (lengths self) = Ok candidate /\
        (hmm_score candidate (X self) (lengths self) = Raise OtherException \/
         exists logL,
           hmm_score candidate (X self) (lengths self) = Ok logL /\
           dic_other_scores hmm_score self candidate (hwords self) []
           = Raise OtherException))) /\
  (forall e, BIC_select self = Raise e \/ DIC_select self = Raise e ->
     e = OtherException).
Proof.
  intros lo hi.
  assert (Hb : forall e, BIC_select self = Raise e <->
            while_loop (search_fuel self) (search_cond self)
              (search_body Float.ltb (bic self))
              (mkSearch lo 100000000%float lo) = Raise e).
  { intros e. apply (search_select_raises Float.ltb (bic self) self _ _ e
                       (bic_body_search _ _ _ self)). }
  assert (Hd : forall e, DIC_select self = Raise e <->
            while_loop (search_fuel self) (search_cond self)
              (search_body Float.gtb (dic self))
              (mkSearch lo (-100000000)%float lo) = Raise e).
  { intros e. apply (search_select_raises Float.gtb (dic self) self _ _ e
                       (dic_body_search _ _ _ self)). }
  split_and!.
  - split.
    + intros (e & H). apply Hb, search_loop_raise in H as (n & Hn & Hc).
      apply bic_crit_raises in Hc as (_ & Hc). eauto.
    + intros (n & Hn & Hc).
      destruct (proj2 (search_loop_raises Float.ltb (bic self) self 100000000%float))
        as (e & He).
      { exists n, OtherException. split; [exact Hn|]. apply bic_crit_raises. auto. }
      exists e. apply Hb, He.
  - split.
    + intros (e & H). apply Hd, search_loop_raise in H as (n & Hn & Hc).
      apply dic_crit_raises in Hc as (_ & Hc). eauto.
    + intros (n & Hn & Hc).
      destruct (proj2 (search_loop_raises Float.gtb (dic self) self (-100000000)%float))
        as (e & He).
      { exists n, OtherException. split; [exact Hn|]. apply dic_crit_raises. auto. }
      exists e. apply Hd, He.
  - intros e [H|H].
    + apply Hb, search_loop_raise in H as (n & _ & Hc).
      apply bic_crit_raises in Hc. tauto.
    + apply Hd, search_loop_raise in H as (n & _ & Hc).
      apply dic_crit_raises in Hc. tauto.
Qed.


(** X4. Over an empty range, [max_n_components < min_n_components], no loop
    runs a round: each of the three searches returns [base_model] at
    [min_n_components], and [KFold] is not asked. *)
Theorem select_empty_range self :
  max_n_components self < min_n_components self ->
  SelectorBIC_select hmm_fit hmm_score np_log self
  = base_model hmm_fit self (min_n_components self) /\
  SelectorDIC_select hmm_fit hmm_score np_mean self
  = base_model hmm_fit self (min_n_components self) /\
  SelectorCV_select hmm_fit hmm_score np_mean KFold_split combine_sequences self
  = base_model hmm_fit self (min_n_components self).
Proof.
  intros Hlt.
  assert (Hfuel : search_fuel self = 0%nat) by (unfold search_fuel; lia).
  unfold SelectorBIC_select, SelectorDIC_select, SelectorCV_select.
  rewrite Hfuel. auto.
Qed.

(** A search whose rounds all skip keeps the first state count. *)
Lemma search_result_all_skipped better crit lo hi sentinel st :
  (forall n, lo <= n <= hi -> crit n = Ok None) ->
  search_result better crit lo hi sentinel st ->
  best_comp_count st = lo.
Proof.
  intros Hskip (_ & [[_ ->]|(Hr & Hc & _)]); [reflexivity|].
  rewrite (Hskip _ Hr) in Hc. discriminate.
Qed.

(** What a search returns when every round skips. *)
Lemma search_select_all_skipped better `{!StrictB better} crit self sentinel body :
  (forall st, body st = search_body better crit st) ->
  (forall n, min_n_components self <= n <= max_n_components self -> crit n = Ok None) ->
  (while_loop (search_fuel self) (search_cond self) body
     (mkSearch (min_n_components self) sentinel (min_n_components self))
   ≫= (fun st => base self (best_comp_count st)))
  = base self (min_n_components self).
Proof.
  intros Hbody Hskip.
  destruct (search_select_cases hmm_fit better crit self sentinel body Hbody)
    as [(e & _ & n & Hn & Hc)|(st & -> & Hres)].
  - rewrite (Hskip _ Hn) in Hc. discriminate.
  - rewrite (search_result_all_skipped _ _ _ _ _ _ Hskip Hres). reflexivity.
Qed.

(** X5. When no state count of a range that is not empty can be fitted on
    the data [(X, lengths)] of the word, every such fit raising a
    [ValueError], [SelectorBIC] and [SelectorDIC] return absence, and
    [SelectorCV] returns absence whenever it returns; it does return, and
    absence, when [KFold] splits the sequences and no state count of the
    range can be fitted on the training data of a fold that has at least
    that many rows either. *)
Theorem select_absent_when_nothing_fits self :
  min_n_components self <= max_n_components self ->
  (forall n, min_n_components self <= n <= max_n_components self ->
     fit n (random_state self) (X self) (lengths self) = Raise ValueError) ->
  BIC_select self = Ok None /\
  DIC_select self = Ok None /\
  (forall r, CV_select self = Ok r -> r = None) /\
  (forall folds, KFold_split (cv_split_count self) (sequences self) = Ok folds ->
     (forall n train test,
        min_n_components self <= n <= max_n_components self ->
        (train, test) ∈ folds ->
        n <= len (combine_sequences train (sequences self)).1 ->
        fit n (random_state self) (combine_sequences train (sequences self)).1
          (combine_sequences train (sequences self)).2 = Raise ValueError) ->
     CV_select self = Ok None).
Proof.
  intros Hle Hfit.
  assert (Hbase : forall n, min_n_components self <= n <= max_n_components self ->
                            base self n = Ok None).
  { intros n Hn. apply base_model_None. exists ValueError. apply Hfit, Hn. }
  split_and!.
  - unfold SelectorBIC_select. cbn zeta.
    rewrite (search_select_all_skipped Float.ltb (bic self)); [apply Hbase; lia|..].
    + apply bic_body_search.
    + intros n Hn. apply bic_crit_no_fit, Hfit, Hn.
  - unfold SelectorDIC_select. cbn zeta.
    rewrite (search_select_all_skipped Float.gtb (dic self)); [apply Hbase; lia|..].
    + apply dic_body_search.
    + intros n Hn. apply dic_crit_no_fit, Hfit, Hn.
  - intros r. unfold SelectorCV_select. cbn zeta.
    destruct (search_select_cases hmm_fit Float.gtb (cv self) self (-100000)%float
                (cv_body hmm_fit hmm_score np_mean KFold_split combine_sequences self)
                (cv_body_search _ _ _ _ _ self))
      as [(e & -> & _)|(st & -> & Hres)]; [discriminate|].
    rewrite Hbase; [congruence|]. eapply search_result_range; [exact Hres|exact Hle].
  - intros folds Hfolds Htrain. unfold SelectorCV_select. cbn zeta.
    rewrite (search_select_all_skipped Float.gtb (cv self)); [apply Hbase; lia|..].
    + apply cv_body_search.
    + intros n Hn. unfold cv_crit. rewrite Hfolds. simpl.
      rewrite cv_folds_no_fold_fit; [reflexivity|].
      intros train test Hin Hlen. exact (Htrain n train test Hn Hin Hlen).
Qed.

(** X6. Over a range of one state count, [min_n_components =
    max_n_components], the three searches return what [base_model] returns
    at that state count, whatever the scores: they are the constant
    selector of that state count, unless a round raises. *)
Theorem select_single_candidate self r :
  min_n_components self = max_n_components self ->
  (BIC_select self = Ok r \/ DIC_select self = Ok r \/ CV_select self = Ok r) ->
  base self (min_n_components self) = Ok r /\
  SelectorConstant_select hmm_fit
    (mkModelSelector (words self) (hwords self) (sequences self) (X self) (lengths self)
       (this_word self) (min_n_components self) (min_n_components self)
       (max_n_components self) (random_state self) (verbose self))
  = Ok r.
Proof.
  intros Heq Hsel.
  assert (Hbase : base self (min_n_components self) = Ok r).
  { assert (Hbest : forall better crit sentinel st,
              search_result better crit (min_n_components self) (max_n_components self)
                sentinel st -> best_comp_count st = min_n_components self).
    { intros better crit sentinel st Hres.
      pose proof (search_result_range _ _ _ _ _ Hres) as Hr. lia. }
    destruct Hsel as [Hsel|[Hsel|Hsel]].
    - destruct (search_select_cases hmm_fit Float.ltb (bic self) self 100000000%float
                  (bic_body hmm_fit hmm_score np_log self) (bic_body_search _ _ _ self))
        as [(e & He & _)|(st & Hst & Hres)];
        unfold SelectorBIC_select in Hsel; [congruence|].
      rewrite <- (Hbest _ _ _ _ Hres). congruence.
    - destruct (search_select_cases hmm_fit Float.gtb (dic self) self (-100000000)%float
                  (dic_body hmm_fit hmm_score np_mean self) (dic_body_search _ _ _ self))
        as [(e & He & _)|(st & Hst & Hres)];
        unfold SelectorDIC_select in Hsel; [congruence|].
      rewrite <- (Hbest _ _ _ _ Hres). congruence.
    - destruct (search_select_cases hmm_fit Float.gtb (cv self) self (-100000)%float
                  (cv_body hmm_fit hmm_score np_mean KFold_split combine_sequences self)
                  (cv_body_search _ _ _ _ _ self))
        as [(e & He & _)|(st & Hst & Hres)];
        unfold SelectorCV_select in Hsel; [congruence|].
      rewrite <- (Hbest _ _ _ _ Hres). congruence. }
  split; [exact Hbase|exact Hbase].
Qed.

(** *** The folds of the cross-validated search *)

(** X7. [SelectorCV.select] asks the trainer for a fit only on training
    folds of at least as many rows as states: a trainer that differs on
    shorter data makes no round of the search differ. *)
Theorem cv_never_fits_short_folds
    (hmm_fit' : Z -> Z -> matrix -> list Z -> result params) self st :
  (forall n seed x l, n <= len x -> hmm_fit' n seed x l = hmm_fit n seed x l) ->
  cv_body hmm_fit' hmm_score np_mean KFold_split combine_sequences self st
  = cv_body hmm_fit hmm_score np_mean KFold_split combine_sequences self st.
Proof.
  intros Hsame. unfold cv_body.
  destruct (KFold_split _ _) as [folds|e]; [|reflexivity]. cbn.
  assert (Hfolds : forall logLs,
            cv_folds hmm_fit' hmm_score combine_sequences self (cur_comp_count st) folds logLs
            = cv_folds hmm_fit hmm_score combine_sequences self (cur_comp_count st)
                folds logLs).
  { induction folds as [|[tr te] folds IH]; intros logLs; [reflexivity|].
    cbn [cv_folds].
    assert (Hfold : cv_fold hmm_fit' hmm_score combine_sequences self (cur_comp_count st)
                      (tr, te) logLs
                    = cv_fold hmm_fit hmm_score combine_sequences self (cur_comp_count st)
                        (tr, te) logLs).
    { unfold cv_fold, cv_fold_try, cv_train_data, cv_test_data, GaussianHMM_fit.
      destruct (combine_sequences tr (sequences self)) as [x l].
      destruct (Z.geb_spec (len x) (cur_comp_count st)) as [Hge|]; [|reflexivity].
      rewrite Hsame by lia. reflexivity. }
    rewrite Hfold. destruct (cv_fold hmm_fit _ _ _ _ _ _); cbn; [apply IH|reflexivity]. }
  rewrite Hfolds. reflexivity.
Qed.

Lemma cv_fold_added self n fold logLs logLs' :
  cv_fold hmm_fit hmm_score combine_sequences self n fold logLs = Ok logLs' ->
  logLs' = logLs ++ option_list (cv_fold_score hmm_fit hmm_score combine_sequences self n fold).
Proof.
  unfold cv_fold, cv_fold_score, cv_fold_try, cv_train_data, cv_test_data.
  destruct fold as [tr te]. cbn [fst].
  destruct (combine_sequences tr (sequences self)) as [x l].
  destruct (len x >=? n); [|intros [= <-]; cbn; rewrite app_nil_r; reflexivity].
  destruct (_ ≫= _) as [v|[]]; intros [= <-]; cbn; [reflexivity|].
  rewrite app_nil_r. reflexivity.
Qed.

Lemma cv_folds_added self n folds logLs logLs' :
  cv_folds hmm_fit hmm_score combine_sequences self n folds logLs = Ok logLs' ->
  logLs' = logLs ++ omap (cv_fold_score hmm_fit hmm_score combine_sequences self n) folds.
Proof.
  revert logLs. induction folds as [|fold folds IH]; intros logLs; cbn [cv_folds].
  - intros [= <-]. cbn. rewrite app_nil_r. reflexivity.
  - destruct (cv_fold _ _ _ _ _ _ _) as [l1|e] eqn:Hf; cbn; [|discriminate].
    intros Hrest. rewrite (IH _ Hrest), (cv_fold_added _ _ _ _ _ Hf), <- app_assoc.
    f_equal. cbn. destruct (cv_fold_score _ _ _ _ _ _); reflexivity.
Qed.

Lemma omap_length_le {A B} (f : A -> option B) (l : list A) :
  (length (omap f l) <= length l)%nat.
Proof.
  induction l as [|a l IH]; cbn; [lia|]. destruct (f a); cbn; lia.
Qed.

(** X8. The score of a state count in [SelectorCV.select] is the mean of
    the scores of the folds that were fitted and scored (the training data
    has a row for every state, and neither the fit nor the score raised),
    in the order of the folds; when no fold was, the state count is skipped.
    There are never more scores than folds. *)
Theorem cv_score_is_mean_of_scored_folds self n r :
  cv self n = Ok r ->
  exists folds,
    KFold_split (cv_split_count self) (sequences self) = Ok folds /\
    let scores := omap (cv_fold_score hmm_fit hmm_score combine_sequences self n) folds in
    r = match scores with [] => None | _ => Some (np_mean scores) end /\
    len scores <= len folds.
Proof.
  unfold cv_crit. destruct (KFold_split _ _) as [folds|e]; cbn; [|discriminate].
  destruct (cv_folds _ _ _ _ _ _ _) as [logLs|e] eqn:Hf; cbn; [|discriminate].
  intros [= <-]. exists folds. split; [reflexivity|].
  apply cv_folds_added in Hf. cbn in Hf. subst logLs. split.
  - destruct (omap _ folds) as [|v vs]; [reflexivity|].
    unfold len. cbn [length]. destruct (Z.gtb_spec (Z.of_nat (S (length vs))) 0); [reflexivity|lia].
  - unfold len. pose proof (omap_length_le
      (cv_fold_score hmm_fit hmm_score combine_sequences self n) folds). lia.
Qed.

(** *** The other words of the discriminative search *)

Lemma gtb_sub_nan logL b : Float.gtb (logL - nan)%float b = false.
Proof.
  unfold Float.gtb. rewrite FloatAxioms.ltb_spec, FloatAxioms.sub_spec.
  change (Prim2SF nan) with S754_nan.
  assert (Hnan : SF64sub (Prim2SF logL) S754_nan = S754_nan).
  { unfold SF64sub, SFsub. destruct (Prim2SF logL) as [[]|[]| |[] ? ?]; reflexivity. }
  rewrite Hnan. unfold SFltb, SFcompare.
  destruct (Prim2SF b) as [[]|[]| |[] ? ?]; reflexivity.
Qed.

(** X9. For a word alone in its corpus there is no other word to score:
    with numpy's [mean], which is NaN on the empty list, no state count has
    a score above the sentinel, and [SelectorDIC.select] returns
    [base_model] at [min_n_components] whatever the scores (or raises the
    foreign exception of a round). *)
Theorem SelectorDIC_select_alone self :
  dic_other_words self = [] ->
  np_mean [] = nan ->
  DIC_select self = base self (min_n_components self) \/
  DIC_select self = Raise OtherException.
Proof.
  intros Halone Hmean.
  assert (Hnone : forall n v, dic self n = Ok (Some v) ->
            forall b, Float.gtb v b = false).
  { intros n v Hv b. unfold dic_crit in Hv.
    destruct (fit n _ _ _) as [c|[]]; cbn in Hv; try discriminate.
    destruct (hmm_score c _ _) as [logL|[]]; cbn in Hv; try discriminate.
    rewrite (dic_other_scores_Ok hmm_score np_mean self c []) in Hv
      by (rewrite Halone; constructor).
    cbn in Hv. injection Hv as <-. rewrite Hmean. apply gtb_sub_nan. }
  destruct (search_select_spec hmm_fit Float.gtb (dic self) self (-100000000)%float
              (dic_body hmm_fit hmm_score np_mean self) (dic_body_search _ _ _ self)
              (dic_crit_not_ValueError _ _ _ self)) as [(He & _)|(st & Hst & Hres)].
  - right. exact He.
  - left. unfold SelectorDIC_select. cbn zeta. rewrite Hst. f_equal.
    destruct Hres as (_ & [[_ ->]|(_ & Hc & Hbeat & _)]); [reflexivity|].
    rewrite (Hnone _ _ Hc) in Hbeat. discriminate.
Qed.

Lemma dic_other_scores_this_word self self' c items acc :
  this_word self' = this_word self ->
  dic_other_scores hmm_score self' c items acc
  = dic_other_scores hmm_score self c items acc.
Proof.
  intros Hw. revert acc. induction items as [|[w [x l]] items IH]; intros acc; cbn;
    [reflexivity|].
  rewrite Hw. destruct (negb _); [|apply IH].
  destruct (hmm_score c x l); cbn; [apply IH|reflexivity].
Qed.

(** X10. [SelectorDIC.select] reads [hwords] for the other words only: the
    mapping may hold anything, or nothing, for the word itself, whose data
    is [X] and [lengths]. *)
Theorem SelectorDIC_select_other_words self hw :
  filter (fun item => item.1 <> this_word self) hw = dic_other_words self ->
  DIC_select (with_hwords self hw) = DIC_select self.
Proof.
  intros Hothers. unfold SelectorDIC_select. cbn zeta.
  change (base (with_hwords self hw)) with (base self).
  change (min_n_components (with_hwords self hw)) with (min_n_components self).
  f_equal. apply while_loop_ext. intros st.
  unfold dic_body, dic_try. cbn [with_hwords X lengths random_state hwords].
  destruct (fit _ _ _ _) as [c|e]; [|reflexivity]. cbn.
  destruct (hmm_score c _ _) as [logL|e]; [|reflexivity]. cbn.
  rewrite (dic_other_scores_this_word self (with_hwords self hw)) by reflexivity.
  rewrite (dic_other_scores_filter hmm_score self c hw),
          (dic_other_scores_filter hmm_score self c (hwords self)).
  fold (dic_other_words self). rewrite Hothers. reflexivity.
Qed.

End SelectorMore.

(** ** The recognizer over a test set *)


Section RecognizerMore.

Context {params : Type}.
Variable hmm_score : GaussianHMM params -> matrix -> list Z -> result float.

#[local] Abbreviation item_of := (recognize_item hmm_score).








(** X11. [recognize] returns two lists with one entry for each of the
    [num_items] items of the test set, in the order of the items: entry [i]
    of [probabilities] and entry [i] of [guesses] are the probabilities and
    the guess of item [i], computed from the [(X, lengths)] of that item
    alone. *)
Theorem recognize_outputs_aligned models test_set probabilities guesses :
  recognize hmm_score models test_set = Ok (probabilities, guesses) ->
  length probabilities = num_items test_set /\
  length guesses = num_items test_set /\
  forall i, (i < num_items test_set)%nat ->
    exists p g,
      probabilities !! i = Some p /\ guesses !! i = Some g /\
      item_of models (get_item_Xlengths test_set i) = Ok (p, g).
Proof.
  intros Hrun. destruct (recognize_spec _ _ _ _ _ Hrun) as (Hp & Hg & Hitems).
  split; [exact Hp|]. split; [exact Hg|]. intros i Hi.
  destruct (lookup_lt_is_Some_2 probabilities i ltac:(lia)) as (p & Hpi).
  destruct (lookup_lt_is_Some_2 guesses i ltac:(lia)) as (g & Hgi).
  exists p, g. auto.
Qed.


Lemma recognize_items_no_scores models test_set items ps gs :
  (forall i w model, i ∈ items -> (w, model) ∈ models ->
     hmm_score model (get_item_Xlengths test_set i).1 (get_item_Xlengths test_set i).2
     = Raise ValueError) ->
  recognize_items hmm_score models test_set items ps gs
  = Ok (ps ++ replicate (length items) ∅, gs ++ replicate (length items) None).
Proof.
  revert ps gs. induction items as [|i items IH]; intros ps gs Hall; cbn [recognize_items].
  - cbn. rewrite !app_nil_r. reflexivity.
  - assert (Hi : item_of models (get_item_Xlengths test_set i) = Ok (∅, None)).
    { unfold recognize_item. rewrite recognize_words_all_fail; [reflexivity|].
      intros k Hin. destruct (dict_get_key _ _ Hin) as (m & Hget & Hm).
      exists m. split; [exact Hget|]. eapply Hall; [left|exact Hm]. }
    rewrite Hi. cbn. rewrite IH by (intros; eapply Hall; [right|]; eauto).
    rewrite <- !app_assoc. reflexivity.
Qed.

(** X13. When no model scores any item, each raising a [ValueError] (or
    when there is no model), [recognize] returns an empty mapping and an
    absent guess for each of the [num_items] items. *)
Theorem recognize_no_scores models test_set :
  (forall i w model, (i < num_items test_set)%nat -> (w, model) ∈ models ->
     hmm_score model (get_item_Xlengths test_set i).1 (get_item_Xlengths test_set i).2
     = Raise ValueError) ->
  recognize hmm_score models test_set
  = Ok (replicate (num_items test_set) ∅, replicate (num_items test_set) None).
Proof.
  intros Hall. unfold recognize. rewrite recognize_items_no_scores.
  - rewrite length_seq. reflexivity.
  - intros i w m Hin. apply Hall. apply elem_of_seq in Hin. lia.
Qed.

(** X14. The guess of an item is read off its probabilities: every word of
    the probabilities is a word of the models; a guess is a word of the
    probabilities whose log-likelihood is above the sentinel [-1e9] and
    that no log-likelihood of the probabilities is above; and the guess is
    absent only when no log-likelihood of the probabilities is above the
    sentinel. *)
Theorem recognize_item_guess_in_probabilities models Xl p g :
  item_of models Xl = Ok (p, g) ->
  (forall w l, p !! w = Some l -> w ∈ dict_keys models) /\
  match g with
  | Some w =>
      exists l, p !! w = Some l /\ Float.gtb l (-1000000000) = true /\
        forall w' l', p !! w' = Some l' -> Float.gtb l' l = false
  | None => forall w l, p !! w = Some l -> Float.gtb l (-1000000000) = false
  end.
Proof.
  intros Hrun. pose proof (recognize_item_entries _ _ _ _ _ Hrun) as Hp.
  apply recognize_item_inv in Hrun as (st & Hrun & _ & ->).
  split.
  - intros w l Hl. rewrite Hp in Hl. eapply word_score_key; eauto.
  - destruct (recognize_words_best _ _ _ _ _ _ Hrun)
      as [(Hw & _ & Hno)|(k1 & w & k2 & l & Hkeys & Hw & _ & Hl & Hbeat & H1 & H2)];
      cbn in *; rewrite Hw.
    + intros w l Hl. rewrite Hp in Hl. eapply Hno; eauto using word_score_key.
    + exists l. rewrite Hp. split_and!; try assumption.
      intros w' l' Hl'. rewrite Hp in Hl'.
      pose proof (word_score_key _ _ _ _ _ Hl') as Hin.
      rewrite Hkeys in Hin. apply elem_of_app in Hin as [Hin|Hin].
      * eapply H1; eauto.
      * apply elem_of_cons in Hin as [->|Hin]; [|eauto].
        rewrite Hl in Hl'. injection Hl' as ->. apply FloatFacts.ltb_irrefl.
Qed.

End RecognizerMore.

(** ** Further properties on concrete inputs *)

#[local] Open Scope string_scope.

(** A use of [select_empty_range]: the range [5 .. 3]. *)
Lemma select_empty_range_witness :
  max_n_components Toy.selector_empty_range < min_n_components Toy.selector_empty_range /\
  SelectorBIC_select Toy.fits_all (Toy.scores (-10)) Toy.np_log Toy.selector_empty_range
  = Ok (Some (mkGaussianHMM 5 14 tt)).
Proof.
  assert (H : max_n_components Toy.selector_empty_range
              < min_n_components Toy.selector_empty_range) by reflexivity.
  split; [exact H|].
  rewrite (proj1 (select_empty_range Toy.fits_all (Toy.scores (-10)) Toy.np_log Toy.np_mean
                    sklearn_KFold_split asl_combine_sequences Toy.selector_empty_range H)).
  reflexivity.
Defined.

(** A use of [select_absent_when_nothing_fits]: a trainer that never fits. *)
Lemma select_absent_when_nothing_fits_witness :
  min_n_components Toy.selector_A <= max_n_components Toy.selector_A /\
  (forall n, min_n_components Toy.selector_A <= n <= max_n_components Toy.selector_A ->
     GaussianHMM_fit (Toy.hmm_fit (fun _ _ => false)) n (random_state Toy.selector_A)
       (X Toy.selector_A) (lengths Toy.selector_A) = Raise ValueError) /\
  SelectorBIC_select (Toy.hmm_fit (fun _ _ => false)) (Toy.scores (-10)) Toy.np_log
    Toy.selector_A = Ok None /\
  SelectorDIC_select (Toy.hmm_fit (fun _ _ => false)) (Toy.scores (-10)) Toy.np_mean
    Toy.selector_A = Ok None /\
  SelectorCV_select (Toy.hmm_fit (fun _ _ => false)) (Toy.scores (-10)) Toy.np_mean
    sklearn_KFold_split asl_combine_sequences Toy.selector_A = Ok None.
Proof.
  assert (Hle : min_n_components Toy.selector_A <= max_n_components Toy.selector_A)
    by (vm_compute; discriminate).
  assert (Hfit : forall n,
             min_n_components Toy.selector_A <= n <= max_n_components Toy.selector_A ->
             GaussianHMM_fit (Toy.hmm_fit (fun _ _ => false)) n
               (random_state Toy.selector_A) (X Toy.selector_A)
               (lengths Toy.selector_A) = Raise ValueError)
    by (intros n _; reflexivity).
  destruct (select_absent_when_nothing_fits (Toy.hmm_fit (fun _ _ => false))
              (Toy.scores (-10)) Toy.np_log Toy.np_mean sklearn_KFold_split
              asl_combine_sequences Toy.selector_A Hle Hfit)
    as (Hbic & Hdic & _ & Hcv).
  split; [exact Hle|]. split; [exact Hfit|]. split; [exact Hbic|]. split; [exact Hdic|].
  eapply Hcv; [vm_compute; reflexivity|]. intros n train test _ _ _. reflexivity.
Defined.

(** A use of [select_single_candidate]: the range [3 .. 3]. *)
Lemma select_single_candidate_witness :
  min_n_components (Toy.selector "A" Toy.three_long [Toy.word_B] 2 3 3)
  = max_n_components (Toy.selector "A" Toy.three_long [Toy.word_B] 2 3 3) /\
  SelectorBIC_select Toy.fits_all (Toy.scores (-10)) Toy.np_log
    (Toy.selector "A" Toy.three_long [Toy.word_B] 2 3 3)
  = Ok (Some (mkGaussianHMM 3 14 tt)) /\
  base_model Toy.fits_all (Toy.selector "A" Toy.three_long [Toy.word_B] 2 3 3) 3
  = Ok (Some (mkGaussianHMM 3 14 tt)).
Proof.
  assert (Hsel : SelectorBIC_select Toy.fits_all (Toy.scores (-10)) Toy.np_log
                   (Toy.selector "A" Toy.three_long [Toy.word_B] 2 3 3)
                 = Ok (Some (mkGaussianHMM 3 14 tt))) by (vm_compute; reflexivity).
  split; [reflexivity|]. split; [exact Hsel|].
  exact (proj1 (select_single_candidate Toy.fits_all (Toy.scores (-10)) Toy.np_log
                  Toy.np_mean sklearn_KFold_split asl_combine_sequences
                  (Toy.selector "A" Toy.three_long [Toy.word_B] 2 3 3)
                  (Some (mkGaussianHMM 3 14 tt)) eq_refl (or_introl Hsel))).
Defined.

(** A use of [cv_never_fits_short_folds]: a trainer that refuses data with
    fewer rows than states, against one that fits everything, on training
    folds of two rows and three states. *)
Lemma cv_never_fits_short_folds_witness :
  (forall n seed x l, (n <= len x)%Z ->
     Toy.hmm_fit (fun n x => (n <=? len x)%Z) n seed x l = Toy.fits_all n seed x l) /\
  cv_body (Toy.hmm_fit (fun n x => (n <=? len x)%Z)) (Toy.scores (-10)) Toy.np_mean
    sklearn_KFold_split asl_combine_sequences
    (Toy.selector "A" Toy.three_short [] 3 2 3) (mkSearch 3 (-100000) 2)
  = cv_body Toy.fits_all (Toy.scores (-10)) Toy.np_mean
      sklearn_KFold_split asl_combine_sequences
      (Toy.selector "A" Toy.three_short [] 3 2 3) (mkSearch 3 (-100000) 2).
Proof.
  assert (H : forall n seed x l, (n <= len x)%Z ->
            Toy.hmm_fit (fun n x => (n <=? len x)%Z) n seed x l = Toy.fits_all n seed x l).
  { intros n seed x l Hn. unfold Toy.fits_all, Toy.hmm_fit.
    destruct (Z.leb_spec n (len x)); [reflexivity|lia]. }
  split; [exact H|].
  exact (cv_never_fits_short_folds Toy.fits_all (Toy.scores (-10)) Toy.np_mean
           sklearn_KFold_split asl_combine_sequences
           (Toy.hmm_fit (fun n x => (n <=? len x)%Z))
           (Toy.selector "A" Toy.three_short [] 3 2 3) (mkSearch 3 (-100000) 2) H).
Defined.

(** A use of [cv_score_is_mean_of_scored_folds]: three folds, all scored. *)
Lemma cv_score_is_mean_of_scored_folds_witness :
  cv_crit Toy.fits_all (Toy.scores (-10)) Toy.np_mean sklearn_KFold_split
    asl_combine_sequences Toy.selector_A 2 = Ok (Some (-10)%float) /\
  exists folds,
    sklearn_KFold_split (cv_split_count Toy.selector_A) (sequences Toy.selector_A)
    = Ok folds /\
    len (omap (cv_fold_score Toy.fits_all (Toy.scores (-10)) asl_combine_sequences
                 Toy.selector_A 2) folds) <= len folds.
Proof.
  assert (H : cv_crit Toy.fits_all (Toy.scores (-10)) Toy.np_mean sklearn_KFold_split
                asl_combine_sequences Toy.selector_A 2 = Ok (Some (-10)%float))
    by (vm_compute; reflexivity).
  split; [exact H|].
  destruct (cv_score_is_mean_of_scored_folds Toy.fits_all (Toy.scores (-10)) Toy.np_mean
              sklearn_KFold_split asl_combine_sequences Toy.selector_A 2 _ H)
    as (folds & Hfolds & _ & Hlen).
  exists folds. split; [exact Hfolds|exact Hlen].
Defined.

(** A use of [SelectorDIC_select_alone]: a word alone in its corpus. *)
Lemma SelectorDIC_select_alone_witness :
  dic_other_words Toy.selector_alone = [] /\
  Toy.np_mean [] = nan /\
  (SelectorDIC_select Toy.fits_all (Toy.scores_by_states (-20) (-10)) Toy.np_mean
     Toy.selector_alone
   = base_model Toy.fits_all Toy.selector_alone (min_n_components Toy.selector_alone) \/
   SelectorDIC_select Toy.fits_all (Toy.scores_by_states (-20) (-10)) Toy.np_mean
     Toy.selector_alone
   = Raise OtherException).
Proof.
  assert (H1 : dic_other_words Toy.selector_alone = []) by reflexivity.
  assert (H2 : Toy.np_mean [] = nan) by (vm_compute; reflexivity).
  split; [exact H1|]. split; [exact H2|].
  exact (SelectorDIC_select_alone Toy.fits_all (Toy.scores_by_states (-20) (-10))
           Toy.np_mean Toy.selector_alone H1 H2).
Defined.

(** A use of [SelectorDIC_select_other_words]: the word's own item dropped
    from the mapping. *)
Lemma SelectorDIC_select_other_words_witness :
  filter (fun item => item.1 <> this_word Toy.selector_A) [Toy.word_B]
  = dic_other_words Toy.selector_A /\
  SelectorDIC_select Toy.fits_all (Toy.scores (-10)) Toy.np_mean
    (with_hwords Toy.selector_A [Toy.word_B])
  = SelectorDIC_select Toy.fits_all (Toy.scores (-10)) Toy.np_mean Toy.selector_A.
Proof.
  assert (H : filter (fun item => item.1 <> this_word Toy.selector_A) [Toy.word_B]
              = dic_other_words Toy.selector_A) by reflexivity.
  split; [exact H|].
  exact (SelectorDIC_select_other_words Toy.fits_all (Toy.scores (-10)) Toy.np_mean
           Toy.selector_A [Toy.word_B] H).
Defined.

(** A use of [recognize_outputs_aligned]: two items, two entries each. *)
Lemma recognize_outputs_aligned_witness :
  exists probabilities guesses,
    recognize (Toy.scores (-5)) Toy.models_AB Toy.two_items = Ok (probabilities, guesses) /\
    length probabilities = 2%nat /\ length guesses = 2%nat.
Proof.
  destruct (recognize (Toy.scores (-5)) Toy.models_AB Toy.two_items) as [[ps gs]|e] eqn:Hrun;
    [|vm_compute in Hrun; discriminate].
  exists ps, gs. split; [reflexivity|].
  destruct (recognize_outputs_aligned (Toy.scores (-5)) Toy.models_AB Toy.two_items
              ps gs Hrun) as (Hp & Hg & _).
  split; [exact Hp|exact Hg].
Defined.


(** A use of [recognize_no_scores]: models that raise on every item. *)
Lemma recognize_no_scores_witness :
  (forall i w model, (i < num_items Toy.two_items)%nat -> (w, model) ∈ Toy.models_AB ->
     Toy.score_fails model (get_item_Xlengths Toy.two_items i).1
       (get_item_Xlengths Toy.two_items i).2 = Raise ValueError) /\
  recognize Toy.score_fails Toy.models_AB Toy.two_items
  = Ok ([∅; ∅], [None; None]).
Proof.
  assert (H : forall i w model,
            (i < num_items Toy.two_items)%nat -> (w, model) ∈ Toy.models_AB ->
            Toy.score_fails model (get_item_Xlengths Toy.two_items i).1
              (get_item_Xlengths Toy.two_items i).2 = Raise ValueError)
    by (intros; reflexivity).
  split; [exact H|].
  exact (recognize_no_scores Toy.score_fails Toy.models_AB Toy.two_items H).
Defined.

(** A use of [recognize_item_guess_in_probabilities]: the guess ["A"] has an
    entry in the probabilities. *)
Lemma recognize_item_guess_in_probabilities_witness :
  exists p,
    recognize_item (Toy.scores (-5)) Toy.models_AB Toy.item = Ok (p, Some "A") /\
    exists l, p !! "A" = Some l /\ Float.gtb l (-1000000000) = true.
Proof.
  destruct (recognize_item (Toy.scores (-5)) Toy.models_AB Toy.item) as [[p g]|e] eqn:Hrun;
    [|vm_compute in Hrun; discriminate].
  assert (Hg : g = Some "A") by (vm_compute in Hrun; congruence).
  subst g. exists p. split; [reflexivity|].
  destruct (proj2 (recognize_item_guess_in_probabilities (Toy.scores (-5)) Toy.models_AB
                     Toy.item p (Some "A") Hrun)) as (l & Hl & Hbeat & _).
  exists l. split; [exact Hl|exact Hbeat].
Defined.
